(** * ecg2bsml: the structural scan of an AliveCor ECG page

    A shallow embedding of [src/pdf2bsml/AliveCor/ecg2bsml.py]: the class
    [GraphicsMap] and the method [ECG_PDF._scan], followed by the properties
    of the scan that the specification states.

    Python values are modelled as the interpreter has them: an [int] is an
    unbounded integer ([Z]), a [float] is an IEEE 754 binary64 number (the
    primitive type [float], whose operations round exactly as CPython's do),
    [None] is the [None] of an [option], and a raised exception is the
    [Raise] of the result type [result]. *)

From Stdlib Require Import ZArith List String Bool Lia.
From Stdlib Require Import Floats.
Import ListNotations.

Set Warnings "-inexact-float".

Open Scope Z_scope.
Open Scope list_scope.

(** ** Exceptions and the error monad *)

(** The exceptions the scan can raise: a failed [assert], an index or a
    [pop] out of range, arithmetic on [None], and the conversion of an [int]
    that no [float] can hold. None is caught inside [_scan]. *)
Inductive exn : Type :=
| AssertionError
| IndexError
| TypeError
| OverflowError.

Inductive result (A : Type) : Type :=
| Return (a : A)
| Raise (e : exn).

Arguments Return {A} a.
Arguments Raise {A} e.

Definition bind {A B : Type} (c : result A) (k : A -> result B) : result B :=
  match c with
  | Return a => k a
  | Raise e => Raise e
  end.

Notation "x <- c ;; k" := (bind c (fun x => k))
  (at level 61, c at next level, right associativity).
Notation "' p <- c ;; k" := (bind c (fun x => let 'p := x in k))
  (at level 61, p pattern, c at next level, right associativity).

(** [assert(b)] *)
Definition assert (b : bool) : result unit :=
  if b then Return tt else Raise AssertionError.

Definition succeeds {A : Type} (c : result A) : Prop :=
  exists a, c = Return a.

Definition fails {A : Type} (c : result A) : Prop :=
  exists e, c = Raise e.

(** ** Numbers *)

(** A numeric word of the content stream: [int(d)] is tried first, then
    [float(d)]. *)
Inductive num : Type :=
| PInt (z : Z)
| PFloat (f : float).

(** The words of [data.split()], each already classified by the two [try]
    blocks at the head of the loop: a word that [int] or [float] accepts is
    a number, any other word is taken as an operator. *)
Inductive token : Type :=
| Num (v : num)
| Op (d : string).

(** Conversion of an [int] to a [float]: rounded to nearest, ties to even;
    CPython raises [OverflowError] when the rounded value is out of range. *)
Definition float_of_int (z : Z) : result float :=
  let f := SF2Prim (binary_normalize prec emax z 0 false) in
  if is_infinity f then Raise OverflowError else Return f.

(** [float(v)], and the coercion of an operand of mixed arithmetic. *)
Definition to_float (v : num) : result float :=
  match v with
  | PInt z => float_of_int z
  | PFloat f => Return f
  end.

(** [z == f] for an [int] and a [float]: CPython compares the exact values,
    without rounding the integer. *)
Definition int_eqb_float (z : Z) (f : float) : bool :=
  match Prim2SF f with
  | S754_zero _ => z =? 0
  | S754_finite sg m e =>
      let sm := if sg then Z.neg m else Z.pos m in
      if 0 <=? e then z =? Z.shiftl sm e else Z.shiftl z (- e) =? sm
  | _ => false
  end.

(** [a == b] on numbers. *)
Definition py_eq (a b : num) : bool :=
  match a, b with
  | PInt x, PInt y => x =? y
  | PFloat x, PFloat y => (x =? y)%float
  | PInt x, PFloat y => int_eqb_float x y
  | PFloat x, PInt y => int_eqb_float y x
  end.

(** [l1 == l2] on lists of numbers: same length, equal elements. *)
Fixpoint py_list_eq (l1 l2 : list num) : bool :=
  match l1, l2 with
  | [], [] => true
  | a :: l1', b :: l2' => py_eq a b && py_list_eq l1' l2'
  | _, _ => false
  end.

(** [l[i:j]] for [0 <= i <= j]. *)
Definition py_slice {A : Type} (l : list A) (i j : nat) : list A :=
  firstn (j - i) (skipn i l).

(** [l[i]]: a negative index counts from the end, and an index outside
    [-len(l) <= i < len(l)] raises [IndexError]. *)
Definition py_getitem {A : Type} (l : list A) (i : Z) : result A :=
  let n := Z.of_nat (List.length l) in
  let j := if i <? 0 then i + n else i in
  if (j <? 0) || (n <=? j) then Raise IndexError
  else match nth_error l (Z.to_nat j) with
       | Some a => Return a
       | None => Raise IndexError
       end.

(** [l.pop()]: the last element and the list without it; [IndexError] on an
    empty list. *)
Definition py_pop {A : Type} (l : list A) : result (A * list A) :=
  match rev l with
  | [] => Raise IndexError
  | a :: r => Return (a, rev r)
  end.

(** [a - b] where [a] is a [float] and [b] is a variable that is [None]
    until it is first assigned a [float]. *)
Definition py_sub (a : float) (b : option float) : result float :=
  match b with
  | Some b => Return (a - b)%float
  | None => Raise TypeError
  end.

(** ** GraphicsMap *)

Definition POINTS2MM : float := (25.4 / 72.0)%float.

(** [self._matrix = [Sx, Sy, Tx, Ty]] *)
Record GraphicsMap : Type := mkGraphicsMap {
  Sx : num;
  Sy : num;
  Tx : num;
  Ty : num
}.

(** [GraphicsMap()] *)
Definition GraphicsMap_default : GraphicsMap :=
  mkGraphicsMap (PInt 1) (PInt 1) (PInt 0) (PInt 0).

(** [GraphicsMap.map(self, point)] *)
Definition GraphicsMap_map (g : GraphicsMap) (point : list num)
  : result (float * float) :=
  sx <- to_float (Sx g) ;;
  p0 <- py_getitem point 0 ;;
  x0 <- to_float p0 ;;
  tx <- to_float (Tx g) ;;
  sy <- to_float (Sy g) ;;
  p1 <- py_getitem point 1 ;;
  y0 <- to_float p1 ;;
  ty <- to_float (Ty g) ;;
  Return (sx * x0 + tx, sy * y0 + ty)%float.

(** ** The locals of [_scan] *)

Record state : Type := mkState {
  stage : Z;
  level : Z;
  intext : bool;
  params : list num;
  transform : GraphicsMap;
  graphicstate : list GraphicsMap;
  linestate : Z;
  X_min : option float;
  X_max : option float;
  T_width : option float;
  t_start : option float;
  subtrace : Z;
  origins_trace : list float;
  origins_beats : list float;
  times : list float;
  trace : list float;
  beats : list float
}.

Definition set_stage (v : Z) (s : state) : state :=
  mkState v (level s) (intext s) (params s) (transform s) (graphicstate s)
    (linestate s) (X_min s) (X_max s) (T_width s) (t_start s) (subtrace s)
    (origins_trace s) (origins_beats s) (times s) (trace s) (beats s).
Definition set_level (v : Z) (s : state) : state :=
  mkState (stage s) v (intext s) (params s) (transform s) (graphicstate s)
    (linestate s) (X_min s) (X_max s) (T_width s) (t_start s) (subtrace s)
    (origins_trace s) (origins_beats s) (times s) (trace s) (beats s).
Definition set_intext (v : bool) (s : state) : state :=
  mkState (stage s) (level s) v (params s) (transform s) (graphicstate s)
    (linestate s) (X_min s) (X_max s) (T_width s) (t_start s) (subtrace s)
    (origins_trace s) (origins_beats s) (times s) (trace s) (beats s).
Definition set_params (v : list num) (s : state) : state :=
  mkState (stage s) (level s) (intext s) v (transform s) (graphicstate s)
    (linestate s) (X_min s) (X_max s) (T_width s) (t_start s) (subtrace s)
    (origins_trace s) (origins_beats s) (times s) (trace s) (beats s).
Definition set_transform (v : GraphicsMap) (s : state) : state :=
  mkState (stage s) (level s) (intext s) (params s) v (graphicstate s)
    (linestate s) (X_min s) (X_max s) (T_width s) (t_start s) (subtrace s)
    (origins_trace s) (origins_beats s) (times s) (trace s) (beats s).
Definition set_graphicstate (v : list GraphicsMap) (s : state) : state :=
  mkState (stage s) (level s) (intext s) (params s) (transform s) v
    (linestate s) (X_min s) (X_max s) (T_width s) (t_start s) (subtrace s)
    (origins_trace s) (origins_beats s) (times s) (trace s) (beats s).
Definition set_linestate (v : Z) (s : state) : state :=
  mkState (stage s) (level s) (intext s) (params s) (transform s)
    (graphicstate s) v (X_min s) (X_max s) (T_width s) (t_start s)
    (subtrace s) (origins_trace s) (origins_beats s) (times s) (trace s)
    (beats s).
Definition set_X_min (v : option float) (s : state) : state :=
  mkState (stage s) (level s) (intext s) (params s) (transform s)
    (graphicstate s) (linestate s) v (X_max s) (T_width s) (t_start s)
    (subtrace s) (origins_trace s) (origins_beats s) (times s) (trace s)
    (beats s).
Definition set_X_max (v : option float) (s : state) : state :=
  mkState (stage s) (level s) (intext s) (params s) (transform s)
    (graphicstate s) (linestate s) (X_min s) v (T_width s) (t_start s)
    (subtrace s) (origins_trace s) (origins_beats s) (times s) (trace s)
    (beats s).
Definition set_T_width (v : option float) (s : state) : state :=
  mkState (stage s) (level s) (intext s) (params s) (transform s)
    (graphicstate s) (linestate s) (X_min s) (X_max s) v (t_start s)
    (subtrace s) (origins_trace s) (origins_beats s) (times s) (trace s)
    (beats s).
Definition set_t_start (v : option float) (s : state) : state :=
  mkState (stage s) (level s) (intext s) (params s) (transform s)
    (graphicstate s) (linestate s) (X_min s) (X_max s) (T_width s) v
    (subtrace s) (origins_trace s) (origins_beats s) (times s) (trace s)
    (beats s).
Definition set_subtrace (v : Z) (s : state) : state :=
  mkState (stage s) (level s) (intext s) (params s) (transform s)
    (graphicstate s) (linestate s) (X_min s) (X_max s) (T_width s) (t_start s)
    v (origins_trace s) (origins_beats s) (times s) (trace s) (beats s).
Definition set_origins_trace (v : list float) (s : state) : state :=
  mkState (stage s) (level s) (intext s) (params s) (transform s)
    (graphicstate s) (linestate s) (X_min s) (X_max s) (T_width s) (t_start s)
    (subtrace s) v (origins_beats s) (times s) (trace s) (beats s).
Definition set_origins_beats (v : list float) (s : state) : state :=
  mkState (stage s) (level s) (intext s) (params s) (transform s)
    (graphicstate s) (linestate s) (X_min s) (X_max s) (T_width s) (t_start s)
    (subtrace s) (origins_trace s) v (times s) (trace s) (beats s).
Definition set_times (v : list float) (s : state) : state :=
  mkState (stage s) (level s) (intext s) (params s) (transform s)
    (graphicstate s) (linestate s) (X_min s) (X_max s) (T_width s) (t_start s)
    (subtrace s) (origins_trace s) (origins_beats s) v (trace s) (beats s).
Definition set_trace (v : list float) (s : state) : state :=
  mkState (stage s) (level s) (intext s) (params s) (transform s)
    (graphicstate s) (linestate s) (X_min s) (X_max s) (T_width s) (t_start s)
    (subtrace s) (origins_trace s) (origins_beats s) (times s) v (beats s).
Definition set_beats (v : list float) (s : state) : state :=
  mkState (stage s) (level s) (intext s) (params s) (transform s)
    (graphicstate s) (linestate s) (X_min s) (X_max s) (T_width s) (t_start s)
    (subtrace s) (origins_trace s) (origins_beats s) (times s) (trace s) v.

(** The bindings made before the loop. *)
Definition init : state :=
  {| stage := 0; level := 0; intext := false; params := [];
     transform := GraphicsMap_default; graphicstate := [];
     linestate := 0; X_min := None; X_max := None; T_width := None;
     t_start := None; subtrace := -1; origins_trace := [];
     origins_beats := []; times := []; trace := []; beats := [] |}.

Definition T_scale : float := 25.0%float.   (* mm/s *)
Definition V_scale : float := 10.0%float.   (* mm/mV *)

(** ** The body of the loop *)

(** The branch [d == 'q']. *)
Definition save (s : state) : result state :=
  let s := set_graphicstate (graphicstate s ++ [transform s]) s in
  let s := set_transform GraphicsMap_default s in
  let s := set_stage (if level s =? 0 then stage s + 1 else stage s) s in
  Return (set_level (level s + 1) s).

(** The branch [d == 'Q']. *)
Definition restore (s : state) : result state :=
  '(t, gs) <- py_pop (graphicstate s) ;;
  let s := set_transform t (set_graphicstate gs s) in
  let s := set_linestate (if linestate s =? 0 then linestate s
                          else linestate s + 1) s in
  Return (set_level (level s - 1) s).

(** The branch [d == 'cm']. *)
Definition concat_matrix (s : state) : result state :=
  _ <- assert ((List.length (params s) =? 6)%nat
               && py_list_eq (py_slice (params s) 1 3) [PInt 0; PInt 0]) ;;
  p0 <- py_getitem (params s) 0 ;;
  p3 <- py_getitem (params s) 3 ;;
  p4 <- py_getitem (params s) 4 ;;
  p5 <- py_getitem (params s) 5 ;;
  Return (set_transform (mkGraphicsMap p0 p3 p4 p5) s).

(** The branch [d == 'w']. *)
Definition line_width (s : state) : result state :=
  _ <- assert (List.length (params s) =? 1)%nat ;;
  w <- py_getitem (params s) 0 ;;
  if stage s =? 2 then
    if py_eq w (PFloat 0.4) then Return (set_linestate 1 s)
    else if py_eq w (PFloat 0.3) then Return (set_linestate 11 s)
    else Return s
  else if stage s =? 3 then
    if py_eq w (PFloat 1.5) then Return (set_linestate 21 s)
    else if py_eq w (PFloat 0.4) then
      Return (set_linestate 22 (set_subtrace (subtrace s + 1) s))
    else if py_eq w (PFloat 0.6) then Return (set_linestate 23 s)
    else Return s
  else Return s.

(** The [linestate == 22] case of the branch [d == 'm'], at the mapped
    point [(x, y)]. *)
Definition move_trace (x y : float) (s : state) : result state :=
  s <- match t_start s with
       | None =>
           let s := set_t_start (Some x) s in
           Return (set_times (times s ++ [0.0%float]) s)
       | Some t0 =>
           t <- py_sub t0 (T_width s) ;;
           let s := set_t_start (Some t) s in
           Return (set_times (times s ++ [(x - t)%float]) s)
       end ;;
  o <- py_getitem (origins_trace s) (subtrace s) ;;
  Return (set_trace (trace s ++ [(y - o)%float]) s).

(** The branch [d == 'm']. *)
Definition move (s : state) : result state :=
  _ <- assert (List.length (params s) =? 2)%nat ;;
  '(x, y) <- GraphicsMap_map (transform s) (params s) ;;
  if linestate s =? 1 then Return (set_X_min (Some x) s)
  else if linestate s =? 2 then
    Return (set_origins_beats (origins_beats s ++ [y]) s)
  else if linestate s =? 12 then
    Return (set_origins_trace (origins_trace s ++ [y]) s)
  else if linestate s =? 22 then move_trace x y s
  else if 23 <=? linestate s then
    b <- py_sub x (t_start s) ;;
    Return (set_beats (beats s ++ [b]) s)
  else Return s.

(** The [linestate == 22] case of the branch [d == 'l']. *)
Definition line_trace (x y : float) (s : state) : result state :=
  t <- py_sub x (t_start s) ;;
  let s := set_times (times s ++ [t]) s in
  o <- py_getitem (origins_trace s) (subtrace s) ;;
  Return (set_trace (trace s ++ [(y - o)%float]) s).

(** The branch [d == 'l']. *)
Definition line (s : state) : result state :=
  _ <- assert (List.length (params s) =? 2)%nat ;;
  '(x, y) <- GraphicsMap_map (transform s) (params s) ;;
  if linestate s =? 1 then
    match T_width s with
    | None =>
        let s := set_X_max (Some x) s in
        w <- py_sub x (X_min s) ;;
        Return (set_T_width (Some w) s)
    | Some _ => Return s
    end
  else if linestate s =? 22 then line_trace x y s
  else Return s.

(** The [if]/[elif] chain on an operator word [d]. *)
Definition operator (d : string) (s : state) : result state :=
  if (d =? "q")%string then save s
  else if (d =? "Q")%string then restore s
  else if (d =? "BT")%string then Return (set_intext true s)
  else if (d =? "ET")%string then Return (set_intext false s)
  else if (d =? "cm")%string then concat_matrix s
  else if (d =? "w")%string then line_width s
  else if (d =? "m")%string then move s
  else if (d =? "l")%string then line s
  else Return s.

(** One iteration of [for d in data.split()]: a number is appended to
    [params]; an operator is executed and [params] emptied. *)
Definition step (tok : token) (s : state) : result state :=
  match tok with
  | Num v => Return (set_params (params s ++ [v]) s)
  | Op d =>
      s <- operator d s ;;
      Return (set_params [] s)
  end.

(** The whole loop. *)
Fixpoint run (data : list token) (s : state) : result state :=
  match data with
  | [] => Return s
  | tok :: data' =>
      s <- step tok s ;;
      run data' s
  end.

(** ** The arrays built after the loop *)

(** [a.__imul__(c)] on an array of floats. *)
Definition imul (a : list float) (c : float) : list float :=
  List.map (fun e => (e * c)%float) a.

(** What [_scan] leaves in the object: [self.ecg], a pair of arrays, and
    [self.beats]. *)
Record output : Type := mkOutput {
  self_ecg : list float * list float;
  self_beats : list float
}.

(** The statements after the loop. *)
Definition finalize (s : state) : output :=
  {| self_ecg := (imul (times s) (POINTS2MM / T_scale)%float,
                  imul (trace s) (POINTS2MM / V_scale)%float);
     self_beats := imul (beats s) (POINTS2MM / T_scale)%float |}.

(** [ECG_PDF._scan(self, data)] *)
Definition _scan (data : list token) : result output :=
  s <- run data init ;;
  Return (finalize s).

(** ** Vocabulary of the properties *)

(** Is the token the operator word [d]? *)
Definition is_op (d : string) (tok : token) : bool :=
  match tok with
  | Op d' => (d' =? d)%string
  | Num _ => false
  end.

(** No ['w'] operator among the tokens. *)
Definition no_width (toks : list token) : bool :=
  forallb (fun tok => negb (is_op "w" tok)) toks.

(** The number of ['Q'] operators among the tokens. *)
Definition restores (toks : list token) : nat :=
  List.length (filter (is_op "Q") toks).

(** A ['m'] or an ['l'] met under the trace role. *)
Definition trace_point (tok : token) (s : state) : bool :=
  (is_op "m" tok || is_op "l" tok) && (linestate s =? 22).

(** A ['m'] met under a beat marker role. *)
Definition beat_point (tok : token) (s : state) : bool :=
  is_op "m" tok && (23 <=? linestate s).

(** Some trace-role ['m'] has been executed among the tokens [pre], run
    from [s0]. *)
Definition trace_move_before (pre : list token) (s0 : state) : Prop :=
  exists p1 p2 s1,
    pre = p1 ++ Op "m" :: p2 /\ run p1 s0 = Return s1 /\ linestate s1 = 22.

(** The second or the third operand of a ['cm'] is present and is not
    equal to 0. *)
Definition off_diagonal_nonzero (ps : list num) : Prop :=
  (exists b, nth_error ps 1 = Some b /\ py_eq b (PInt 0) = false)
  \/ (exists c, nth_error ps 2 = Some c /\ py_eq c (PInt 0) = false).

(** The cursor arithmetic that precedes the lookup of the origin cannot
    fail: a ['m'] finds the cursor unset or the width measured, a ['l']
    finds the cursor set. *)
Definition cursor_ready (d : string) (s : state) : Prop :=
  match t_start s with
  | None => d = "m"%string
  | Some _ => d = "l"%string \/ T_width s <> None
  end.

(** The branch that an operator word selects. *)
Inductive op_view (s : state) : string -> result state -> Prop :=
| view_q : op_view s "q" (save s)
| view_Q : op_view s "Q" (restore s)
| view_BT : op_view s "BT" (Return (set_intext true s))
| view_ET : op_view s "ET" (Return (set_intext false s))
| view_cm : op_view s "cm" (concat_matrix s)
| view_w : op_view s "w" (line_width s)
| view_m : op_view s "m" (move s)
| view_l : op_view s "l" (line s)
| view_other (d : string) :
    d <> "Q"%string -> d <> "w"%string -> d <> "m"%string ->
    d <> "l"%string -> op_view s d (Return s).

(** ** Scans used as examples *)

Definition F (f : float) : token := Num (PFloat f).
Definition I (z : Z) : token := Num (PInt z).

(** The final state of the loop on the tokens [toks], for scans that are
    known to succeed. *)
Definition state_after (toks : list token) : state :=
  match run toks init with
  | Return s => s
  | Raise _ => init
  end.

(** [q q 0.4 w 1 0 0 -1 0 0 cm 0 0 m 100 0 l S Q Q] *)
Definition border_block : list token :=
  [Op "q"; Op "q"; F 0.4; Op "w";
   I 1; I 0; I 0; I (-1); I 0; I 0; Op "cm";
   I 0; I 0; Op "m"; I 100; I 0; Op "l"; Op "S"; Op "Q"; Op "Q"].

(** A scan that reaches role 22 with [subtrace = -1]: one trace origin is
    recorded, the ['Q'] that closes the calibration pulse advances role 21,
    and no trace width has been declared yet; two operands are pending. *)
Definition calibration_closed : list token :=
  [Op "q"; Op "Q";
   Op "q"; F 0.3; Op "w"; Op "q"; Op "Q";
   Op "q"; I 0; I 50; Op "m"; Op "S"; Op "Q"; Op "Q";
   Op "q"; F 1.5; Op "w"; Op "q"; Op "Q";
   I 10; I 75].

(** A page with a border from x = 10 to x = 110, two trace origins and a
    first subtrace about to start at [(10, 50)]. *)
Definition first_subtrace_start : list token :=
  [Op "q"; Op "Q";
   Op "q"; F 0.4; Op "w";
   Op "q"; I 10; I 0; Op "m"; I 110; I 0; Op "l"; Op "S"; Op "Q";
   F 0.3; Op "w"; Op "q"; Op "Q";
   Op "q"; I 0; I 50; Op "m"; I 0; I 80; Op "m"; Op "S"; Op "Q";
   Op "Q";
   Op "q"; F 0.4; Op "w"; Op "q"; I 10; I 50].

(** The first subtrace runs on to the right border, [(110, 50)], and the
    second one is about to start at [(10, 80)]. *)
Definition first_subtrace_rest : list token :=
  [I 110; I 50; Op "l"; Op "S"; Op "Q";
   F 0.4; Op "w"; Op "q"; I 10; I 80].

(** A trace of three samples at x = 10, 20, 30 around the origin 50. *)
Definition three_samples : list token :=
  [Op "q"; Op "Q";
   Op "q"; F 0.3; Op "w"; Op "q"; Op "Q";
   Op "q"; I 0; I 50; Op "m"; Op "S"; Op "Q"; Op "Q";
   Op "q"; F 0.4; Op "w";
   Op "q"; I 10; I 50; Op "m"; I 20; I 60; Op "l"; I 30; I 40; Op "l";
   Op "S"; Op "Q"].

(** A beat marker at x = 15 and the start of a second one at x = 25. *)
Definition marker_blocks : list token :=
  [Op "q"; I 15; I 0; Op "m"; I 15; I 5; Op "l"; Op "S"; Op "Q";
   Op "q"; I 25; I 0].

(** The same after their width declaration. *)
Definition two_markers : list token :=
  F 0.6 :: Op "w" :: marker_blocks.

(** ** Vocabulary of the further properties *)

(** The nesting depth after the tokens [toks], entered at depth [k]: a ['q']
    opens a level, a ['Q'] closes one; [None] when a ['Q'] comes at depth
    0. *)
Fixpoint nesting (k : nat) (toks : list token) : option nat :=
  match toks with
  | [] => Some k
  | tok :: rest =>
      if is_op "q" tok then nesting (S k) rest
      else if is_op "Q" tok then
        match k with
        | O => None
        | S k' => nesting k' rest
        end
      else nesting k rest
  end.

(** The operator words that have a branch of their own in the loop. *)
Definition known_operators : list string :=
  ["q"; "Q"; "BT"; "ET"; "cm"; "w"; "m"; "l"]%string.

(** The state without the three variables that the loop writes and never
    reads: [intext], [origins_beats] and [X_max]. *)
Definition scrub (s : state) : state :=
  set_intext false (set_origins_beats [] (set_X_max None s)).

(** The image of a result. *)
Definition result_map {A B : Type} (f : A -> B) (c : result A) : result B :=
  match c with
  | Return a => Return (f a)
  | Raise e => Raise e
  end.

(** [l1] is an initial part of [l2]. *)
Definition prefix_of {A : Type} (l1 l2 : list A) : Prop :=
  exists l, l2 = l1 ++ l.

(** What holds of the counters in every state that a scan reaches. *)
Definition counters_ok (s : state) : Prop :=
  0 <= stage s
  /\ 0 <= linestate s
  /\ (linestate s <> 0 -> 2 <= stage s)
  /\ -1 <= subtrace s
  /\ (0 <= subtrace s -> 3 <= stage s).

(** The number of operands that the assertion of an operator asks for. *)
Definition arity (d : string) : option nat :=
  if (d =? "cm")%string then Some 6%nat
  else if (d =? "w")%string then Some 1%nat
  else if (d =? "m")%string then Some 2%nat
  else if (d =? "l")%string then Some 2%nat
  else None.

(** The cursor and the recorded times go together: nothing is recorded
    while the cursor is unset, and the first time recorded is 0.0. *)
Definition cursor_ok (s : state) : Prop :=
  (t_start s = None /\ times s = [] /\ beats s = [])
  \/ (t_start s <> None /\ exists rest, times s = 0%float :: rest).

(** The tokens of a block: a save, the tokens [inner], a restore. *)
Definition block (inner : list token) : list token :=
  Op "q" :: inner ++ [Op "Q"].

(** A block entered under the map [(1, -1, 5, 7)]; it installs a map of its
    own, holds a nested block and a point. *)
Definition flipped_entry : list token :=
  [Op "q"; I 1; I 0; I 0; I (-1); I 5; I 7; Op "cm"].

Definition scaled_inner : list token :=
  [I 2; I 0; I 0; I 2; I 0; I 0; Op "cm"; Op "q"; Op "Q";
   I 1; I 1; Op "m"].

(** A border whose first line measures the width 100; a second line and a
    second move follow under the same role. *)
Definition border_first_line : list token :=
  [Op "q"; Op "Q"; Op "q"; F 0.4; Op "w";
   Op "q"; I 10; I 0; Op "m"; I 110; I 0; Op "l"].

Definition border_more : list token :=
  [I 300; I 0; Op "l"; I 50; I 0; Op "m"].

(** The page of [first_subtrace_start] with the second subtrace about to
    start at [(10, 75)]. *)
Definition second_subtrace_start : list token :=
  first_subtrace_start
    ++ Op "m" :: [I 110; I 50; Op "l"; Op "S"; Op "Q";
                  F 0.4; Op "w"; Op "q"; I 10; I 75].

(** The abscissa that a ['l'] met under role 22 maps its operands to: the
    [x] that its branch subtracts the cursor from. *)
Definition line_abscissa (tok : token) (s : state) : list float :=
  if is_op "l" tok && (linestate s =? 22) then
    match GraphicsMap_map (transform s) (params s) with
    | Return (x, _) => [x]
    | Raise _ => []
    end
  else [].

(** The abscissas of the trace-role lines executed by the tokens [toks],
    run from [s], in the order of the stream. *)
Fixpoint line_abscissas (toks : list token) (s : state) : list float :=
  match toks with
  | [] => []
  | tok :: rest =>
      match step tok s with
      | Return s' => line_abscissa tok s ++ line_abscissas rest s'
      | Raise _ => []
      end
  end.

(** The binary64 numbers 10, 100 and 110 as sign, mantissa and exponent. *)
Definition SF10 : spec_float := S754_finite false 5629499534213120 (-49).
Definition SF100 : spec_float := S754_finite false 7036874417766400 (-46).
Definition SF110 : spec_float := S754_finite false 7740561859543040 (-46).

(** A shifted mantissa that has lost no bit. *)
Definition exact_record (mrs : shr_record) : Prop :=
  shr_r mrs = false /\ shr_s mrs = false.

(** The first subtrace stops at [(60, 55)], left of the right border, and
    the second one is about to start at [(10, 80)]. *)
Definition short_subtrace_rest : list token :=
  [I 60; I 55; Op "l"; Op "S"; Op "Q";
   F 0.4; Op "w"; Op "q"; I 10; I 80].

(** ** Basic facts about the monad and the Python lists *)

Lemma bind_Return {A B : Type} (c : result A) (k : A -> result B) (b : B) :
  bind c k = Return b -> exists a, c = Return a /\ k a = Return b.
Proof.
  destruct c as [a|e]; cbn; intros H; [eauto | discriminate].
Qed.

Lemma assert_Return (b : bool) (u : unit) : assert b = Return u -> b = true.
Proof. destruct b; [reflexivity | discriminate]. Qed.

Lemma py_pop_snoc {A : Type} (l : list A) (a : A) :
  py_pop (l ++ [a]) = Return (a, l).
Proof. unfold py_pop. rewrite rev_unit, rev_involutive. reflexivity. Qed.

Lemma run_app (a b : list token) (s : state) :
  run (a ++ b) s = (s' <- run a s ;; run b s').
Proof.
  revert s. induction a as [|tok a IH]; intros s; cbn; [reflexivity|].
  destruct (step tok s) as [s1|e]; cbn; [apply IH | reflexivity].
Qed.

Lemma run_cons (tok : token) (data : list token) (s : state) :
  run (tok :: data) s = (s' <- step tok s ;; run data s').
Proof. reflexivity. Qed.

(** A failure of the loop is a failure of [_scan]: nothing is assigned to
    [self.ecg] or [self.beats]. *)
Lemma scan_Raise (data : list token) (e : exn) :
  run data init = Raise e -> _scan data = Raise e.
Proof. unfold _scan. intros ->. reflexivity. Qed.

Lemma run_Raise_at (pre post : list token) (tok : token) (s0 s : state)
      (e : exn) :
  run pre s0 = Return s -> step tok s = Raise e ->
  run (pre ++ tok :: post) s0 = Raise e.
Proof.
  intros Hpre Hstep. rewrite run_app, Hpre. cbn. rewrite Hstep. reflexivity.
Qed.

(** Inversion of a successful computation, following binds, tests and
    matches down to the calls that are left folded. *)
Ltac inv_res H :=
  lazymatch type of H with
  | Return _ = Return _ => injection H as H; try subst
  | Raise _ = Return _ => discriminate H
  | assert ?b = Return _ => apply assert_Return in H
  | bind ?c _ = Return _ =>
      let E := fresh "E" in
      destruct c eqn:E; cbn [bind] in H; [inv_res E; inv_res H | discriminate H]
  | (if ?b then _ else _) = Return _ =>
      let E := fresh "E" in destruct b eqn:E; inv_res H
  | (match ?x with _ => _ end) = Return _ =>
      let E := fresh "E" in destruct x eqn:E; inv_res H
  | _ => idtac
  end.

Ltac unfold_operator :=
  unfold operator, save, restore, concat_matrix, line_width, move, line,
    move_trace, line_trace in *.

Lemma operator_view (d : string) (s : state) : op_view s d (operator d s).
Proof.
  unfold operator.
  repeat match goal with
         | |- context [(d =? ?c)%string] =>
             destruct (String.eqb_spec d c); [subst d; constructor|]
         end.
  constructor; assumption.
Qed.

(** ** The role counter [linestate] *)

Lemma step_Q_linestate (s s' : state) :
  step (Op "Q") s = Return s' ->
  linestate s' = if linestate s =? 0 then linestate s else linestate s + 1.
Proof.
  cbn. unfold restore. intros H. inv_res H. reflexivity.
Qed.

(** [linestate] changes only at ['Q'] and ['w']. *)
Lemma step_linestate_other (tok : token) (s s' : state) :
  is_op "Q" tok = false -> is_op "w" tok = false ->
  step tok s = Return s' ->
  linestate s' = linestate s.
Proof.
  intros HQ Hw H. destruct tok as [v|d]; cbn in H.
  - inv_res H. reflexivity.
  - destruct (operator_view d s); try discriminate;
      unfold_operator; inv_res H; reflexivity.
Qed.

Lemma step_linestate_no_w (tok : token) (s s' : state) :
  is_op "w" tok = false ->
  step tok s = Return s' ->
  linestate s' =
    if is_op "Q" tok && negb (linestate s =? 0) then linestate s + 1
    else linestate s.
Proof.
  intros Hw H. destruct (is_op "Q" tok) eqn:HQ; cbn [andb].
  - destruct tok as [v|d]; [discriminate|].
    cbn in HQ. apply String.eqb_eq in HQ. subst d.
    rewrite (step_Q_linestate _ _ H). destruct (linestate s =? 0); reflexivity.
  - eapply step_linestate_other; eassumption.
Qed.

(** Without a width declaration a nonzero role has advanced by the number
    of restores. *)
Lemma run_linestate_no_w (toks : list token) (s s' : state) :
  no_width toks = true ->
  0 < linestate s ->
  run toks s = Return s' ->
  linestate s' = linestate s + Z.of_nat (restores toks).
Proof.
  revert s. induction toks as [|tok toks IH]; intros s Hw Hpos H.
  - cbn in H. inv_res H. cbn. lia.
  - cbn in Hw. apply andb_true_iff in Hw. destruct Hw as [Hw1 Hw].
    apply negb_true_iff in Hw1.
    rewrite run_cons in H. apply bind_Return in H.
    destruct H as (s1 & H1 & H).
    pose proof (step_linestate_no_w _ _ _ Hw1 H1) as L.
    assert (Hne : (linestate s =? 0) = false) by (apply Z.eqb_neq; lia).
    rewrite Hne in L. cbn [negb] in L. rewrite andb_true_r in L.
    unfold restores in *. cbn [filter].
    destruct (is_op "Q" tok).
    + rewrite (IH s1 Hw) by (assumption || lia). cbn [List.length]. lia.
    + rewrite (IH s1 Hw) by (assumption || lia). lia.
Qed.

(** A ['w'] with the single operand [w]: the role it leaves. *)
Lemma step_w_float (s : state) (w : float) :
  params s = [PFloat w] ->
  step (Op "w") s =
    Return (set_params []
      (if stage s =? 2 then
         if (w =? 0.4)%float then set_linestate 1 s
         else if (w =? 0.3)%float then set_linestate 11 s
         else s
       else if stage s =? 3 then
         if (w =? 1.5)%float then set_linestate 21 s
         else if (w =? 0.4)%float then
           set_linestate 22 (set_subtrace (subtrace s + 1) s)
         else if (w =? 0.6)%float then set_linestate 23 s
         else s
       else s)).
Proof.
  intros Hp. cbn. unfold line_width. rewrite Hp. cbn.
  repeat match goal with
         | |- context [if ?b then _ else _] => destruct b
         end; reflexivity.
Qed.

(** C3. A restore that succeeds adds exactly 1 to a nonzero role and leaves
    role 0 at 0; from role 1, tokens that hold two restores and no width
    declaration lead to role 3; and each of the five recognized
    (stage, width) declarations sets the role to its own value, whatever
    the role was before. *)
Theorem role_advancement (s s' : state) (toks : list token) :
  (step (Op "Q") s = Return s' ->
   linestate s' = if linestate s =? 0 then 0 else linestate s + 1)
  /\ (linestate s = 1 -> no_width toks = true -> restores toks = 2%nat ->
      run toks s = Return s' -> linestate s' = 3)
  /\ (forall (w : float) (role : Z),
        params s = [PFloat w] ->
        In (stage s, w, role)
           [(2, 0.4%float, 1); (2, 0.3%float, 11); (3, 1.5%float, 21);
            (3, 0.4%float, 22); (3, 0.6%float, 23)] ->
        exists s'', step (Op "w") s = Return s'' /\ linestate s'' = role).
Proof.
  split; [|split].
  - intros H. rewrite (step_Q_linestate _ _ H).
    destruct (linestate s =? 0) eqn:E; [|reflexivity].
    apply Z.eqb_eq in E. exact E.
  - intros H1 Hw Hn H.
    rewrite (run_linestate_no_w toks s s' Hw) by (assumption || lia).
    rewrite H1, Hn. reflexivity.
  - intros w role Hp Hin. rewrite (step_w_float s w Hp).
    eexists; split; [reflexivity|].
    cbn in Hin.
    repeat (destruct Hin as [Hin|Hin];
            [injection Hin as Hs Hw Hr; subst w role; rewrite <- Hs;
             reflexivity|]).
    contradiction.
Qed.

(** ** The accumulators [times], [trace] and [beats] *)

Ltac prop_tests :=
  repeat match goal with
         | H : (_ =? _) = true |- _ => apply Z.eqb_eq in H
         | H : (_ =? _) = false |- _ => apply Z.eqb_neq in H
         | H : (_ <=? _) = true |- _ => apply Z.leb_le in H
         | H : (_ <=? _) = false |- _ => apply Z.leb_gt in H
         end.

Ltac decide_tests :=
  repeat match goal with
         | |- context [?a =? ?b] => destruct (Z.eqb_spec a b); try lia
         | |- context [?a <=? ?b] => destruct (Z.leb_spec a b); try lia
         end.

Lemma step_times_trace (tok : token) (s s' : state) :
  step tok s = Return s' ->
  if trace_point tok s
  then exists t a, times s' = times s ++ [t] /\ trace s' = trace s ++ [a]
  else times s' = times s /\ trace s' = trace s.
Proof.
  intros H. unfold trace_point. destruct tok as [v|d]; cbn in H.
  - inv_res H. cbn. split; reflexivity.
  - destruct (operator_view d s); unfold_operator; inv_res H;
      cbn - [Z.eqb]; prop_tests; decide_tests;
      try (split; reflexivity); try (eexists; eexists; split; reflexivity).
    all: cbn; repeat match goal with
                     | |- context [(?x =? ?c)%string] =>
                         destruct (String.eqb_spec x c); try congruence
                     end; cbn; split; reflexivity.
Qed.

Lemma step_beats (tok : token) (s s' : state) :
  step tok s = Return s' ->
  if beat_point tok s
  then exists b, beats s' = beats s ++ [b]
  else beats s' = beats s.
Proof.
  intros H. unfold beat_point. destruct tok as [v|d]; cbn in H.
  - inv_res H. reflexivity.
  - destruct (operator_view d s); unfold_operator; inv_res H;
      cbn - [Z.eqb Z.leb]; prop_tests; decide_tests;
      try reflexivity; try (eexists; reflexivity).
    all: cbn; repeat match goal with
                     | |- context [(?x =? ?c)%string] =>
                         destruct (String.eqb_spec x c); try congruence
                     end; reflexivity.
Qed.

Lemma run_prefix (data : list token) (n : nat) (s s' : state) :
  run data s = Return s' ->
  exists s1, run (firstn n data) s = Return s1
             /\ run (skipn n data) s1 = Return s'.
Proof.
  intros H. rewrite <- (firstn_skipn n data) in H at 1.
  rewrite run_app in H. apply bind_Return in H. exact H.
Qed.

Lemma run_same_length (toks : list token) (s s' : state) :
  run toks s = Return s' ->
  List.length (times s) = List.length (trace s) ->
  List.length (times s') = List.length (trace s').
Proof.
  revert s. induction toks as [|tok toks IH]; intros s H L.
  - cbn in H. inv_res H. exact L.
  - rewrite run_cons in H. apply bind_Return in H.
    destruct H as (s1 & H1 & H). apply (IH s1 H).
    pose proof (step_times_trace _ _ _ H1) as P.
    destruct (trace_point tok s).
    + destruct P as (t & a & -> & ->). rewrite !length_app. cbn. lia.
    + destruct P as [-> ->]. exact L.
Qed.

Lemma imul_length (a : list float) (c : float) :
  List.length (imul a c) = List.length a.
Proof. apply length_map. Qed.

(** C6. When the scan completes, [times] and [trace] have the same length
    after every token, and so have the two arrays of [self.ecg]; a step
    that succeeds appends one element to each of them when it is a ['m'] or
    an ['l'] under role 22, and leaves both as they were otherwise. *)
Theorem times_trace_parallel (data : list token) (out : output) :
  _scan data = Return out ->
  (forall n : nat,
      exists s, run (firstn n data) init = Return s
                /\ List.length (times s) = List.length (trace s))
  /\ List.length (fst (self_ecg out)) = List.length (snd (self_ecg out))
  /\ (forall (tok : token) (s s' : state),
        step tok s = Return s' ->
        if trace_point tok s
        then exists t a, times s' = times s ++ [t]
                         /\ trace s' = trace s ++ [a]
        else times s' = times s /\ trace s' = trace s).
Proof.
  unfold _scan. intros H. apply bind_Return in H.
  destruct H as (s & Hrun & Hout). injection Hout as <-.
  split; [|split].
  - intros n. destruct (run_prefix data n init s Hrun) as (s1 & H1 & _).
    exists s1. split; [exact H1|].
    apply (run_same_length _ _ _ H1). reflexivity.
  - cbn. rewrite !imul_length.
    apply (run_same_length _ _ _ Hrun). reflexivity.
  - exact step_times_trace.
Qed.

(** ** The time cursor [t_start] *)

Lemma step_t_start (tok : token) (s s' : state) :
  step tok s = Return s' -> t_start s <> None -> t_start s' <> None.
Proof.
  intros H. destruct tok as [v|d]; cbn in H.
  - inv_res H. exact (fun N => N).
  - destruct (operator_view d s); unfold_operator; inv_res H; cbn;
      congruence.
Qed.

Lemma run_t_start (toks : list token) (s s' : state) :
  run toks s = Return s' -> t_start s <> None -> t_start s' <> None.
Proof.
  revert s. induction toks as [|tok toks IH]; intros s H N.
  - cbn in H. inv_res H. exact N.
  - rewrite run_cons in H. apply bind_Return in H.
    destruct H as (s1 & H1 & H). apply (IH s1 H).
    exact (step_t_start _ _ _ H1 N).
Qed.

(** A trace-role move leaves the cursor set. *)
Lemma move_trace_sets_cursor (s s' : state) :
  linestate s = 22 -> step (Op "m") s = Return s' -> t_start s' <> None.
Proof.
  intros L H. cbn in H. unfold_operator. rewrite L in H. cbn in H.
  inv_res H; cbn; congruence.
Qed.

Lemma to_float_Raise (v : num) (e : exn) :
  to_float v = Raise e -> e = OverflowError.
Proof.
  destruct v as [z|f]; cbn; [|discriminate].
  unfold float_of_int. destruct (is_infinity _); congruence.
Qed.

Lemma py_getitem_Raise {A : Type} (l : list A) (i : Z) (e : exn) :
  py_getitem l i = Raise e -> e = IndexError.
Proof.
  unfold py_getitem. destruct (_ || _); [congruence|].
  destruct (nth_error _ _); congruence.
Qed.

(** [map] never fails on a [None]. *)
Lemma GraphicsMap_map_Raise (g : GraphicsMap) (p : list num) (e : exn) :
  GraphicsMap_map g p = Raise e -> e <> TypeError.
Proof.
  unfold GraphicsMap_map. intros H.
  repeat match type of H with
         | bind ?c _ = Raise _ =>
             let E := fresh "E" in
             destruct c eqn:E; cbn [bind] in H;
             [| injection H as <-;
                first [apply to_float_Raise in E
                      | apply py_getitem_Raise in E]; congruence]
         end.
  discriminate.
Qed.

(** A beat-marker move at the mapped point [(x, y)]. *)
Lemma step_m_beat (s : state) :
  23 <= linestate s ->
  step (Op "m") s =
    (_ <- assert (List.length (params s) =? 2)%nat ;;
     '(x, _) <- GraphicsMap_map (transform s) (params s) ;;
     b <- py_sub x (t_start s) ;;
     Return (set_params [] (set_beats (beats s ++ [b]) s))).
Proof.
  intros L. cbn. unfold move.
  destruct (assert (List.length (params s) =? 2)%nat); [|reflexivity]. cbn.
  destruct (GraphicsMap_map (transform s) (params s)) as [[x y]|e];
    [|reflexivity].
  cbn - [Z.eqb Z.leb]. decide_tests.
  destruct (py_sub x (t_start s)); reflexivity.
Qed.

(** C4. From a role of 23 or more, tokens without a width declaration lead
    to a role that is the old one plus the number of restores, hence still
    23 or more; a ['m'] met there is a beat point, and when it succeeds it
    appends [x - t_start] to [beats] and nothing to [times] or [trace]. *)
Theorem beat_marker_sticky (toks : list token) (s s1 : state) :
  23 <= linestate s ->
  no_width toks = true ->
  run toks s = Return s1 ->
  linestate s1 = linestate s + Z.of_nat (restores toks)
  /\ 23 <= linestate s1
  /\ beat_point (Op "m") s1 = true
  /\ (forall s2, step (Op "m") s1 = Return s2 ->
        exists x y t0,
          GraphicsMap_map (transform s1) (params s1) = Return (x, y)
          /\ t_start s1 = Some t0
          /\ beats s2 = beats s1 ++ [(x - t0)%float]
          /\ times s2 = times s1 /\ trace s2 = trace s1).
Proof.
  intros L Hw H.
  assert (E : linestate s1 = linestate s + Z.of_nat (restores toks))
    by (apply run_linestate_no_w; [assumption | lia | assumption]).
  assert (L1 : 23 <= linestate s1) by lia.
  split; [exact E|]. split; [exact L1|]. split.
  - unfold beat_point. cbn. apply Z.leb_le. exact L1.
  - intros s2 H2. rewrite (step_m_beat s1 L1) in H2.
    apply bind_Return in H2. destruct H2 as (u & _ & H2).
    apply bind_Return in H2. destruct H2 as ([x y] & Hmap & H2).
    apply bind_Return in H2. destruct H2 as (b & Hb & H2).
    injection H2 as <-.
    destruct (t_start s1) as [t0|] eqn:T; [|discriminate].
    cbn in Hb. injection Hb as <-.
    exists x, y, t0. cbn. repeat split; try reflexivity. exact Hmap.
Qed.

(** Only a trace-role move changes the cursor. *)
Lemma step_t_start_same (tok : token) (s s' : state) :
  step tok s = Return s' ->
  (is_op "m" tok && (linestate s =? 22)) = false ->
  t_start s' = t_start s.
Proof.
  intros H Hm. destruct tok as [v|d]; cbn in H.
  - inv_res H. reflexivity.
  - destruct (operator_view d s); unfold_operator; inv_res H;
      cbn in Hm |- *; try reflexivity; congruence.
Qed.

Lemma cursor_unchanged (pre : list token) (s0 s : state) :
  run pre s0 = Return s ->
  ~ trace_move_before pre s0 ->
  t_start s = t_start s0.
Proof.
  revert s0. induction pre as [|tok pre IH]; intros s0 H N.
  - cbn in H. inv_res H. reflexivity.
  - rewrite run_cons in H. apply bind_Return in H.
    destruct H as (s1 & H1 & H). rewrite (IH s1 H).
    + apply (step_t_start_same _ _ _ H1).
      destruct (is_op "m" tok) eqn:Em; [|reflexivity].
      destruct tok as [v|d]; [discriminate|].
      cbn in Em. apply String.eqb_eq in Em. subst d.
      cbn. apply Z.eqb_neq. intros L. apply N.
      exists [], pre, s0. repeat split. exact L.
    + intros (p1 & p2 & s2 & -> & R & L). apply N.
      exists (tok :: p1), p2, s2. repeat split; [|exact L].
      rewrite run_cons, H1. exact R.
Qed.

(** Tokens without a ['m'] hold no trace-role move. *)
Lemma no_move_before (pre : list token) (s0 : state) :
  forallb (fun tok => negb (is_op "m" tok)) pre = true ->
  ~ trace_move_before pre s0.
Proof.
  intros A (p1 & p2 & s1 & -> & _).
  rewrite forallb_app in A. apply andb_true_iff in A.
  destruct A as [_ A]. cbn in A. discriminate.
Qed.

Lemma cursor_set (pre : list token) (s0 s : state) :
  run pre s0 = Return s ->
  trace_move_before pre s0 ->
  t_start s <> None.
Proof.
  intros H (p1 & p2 & s1 & -> & R & L).
  rewrite run_app, R in H. cbn [bind] in H.
  rewrite run_cons in H. apply bind_Return in H.
  destruct H as (s2 & H2 & H).
  apply (run_t_start _ _ _ H). apply (move_trace_sets_cursor _ _ L H2).
Qed.

(** C10. A ['m'] under a role of 23 or more, met after the tokens [pre]:
    when no trace-role move was executed before it, the step fails and so
    does the scan; when one was, the step cannot fail on the missing
    cursor, it appends one element to [beats] when it succeeds, and it does
    succeed on two operands that the transform maps. *)
Theorem beat_marker_cursor (pre post : list token) (s : state) :
  run pre init = Return s ->
  23 <= linestate s ->
  (~ trace_move_before pre init ->
     fails (step (Op "m") s) /\ fails (_scan (pre ++ Op "m" :: post)))
  /\ (trace_move_before pre init ->
        step (Op "m") s <> Raise TypeError
        /\ (forall s', step (Op "m") s = Return s' ->
              exists b, beats s' = beats s ++ [b])
        /\ (forall x y,
              (List.length (params s) =? 2)%nat = true ->
              GraphicsMap_map (transform s) (params s) = Return (x, y) ->
              exists t0, t_start s = Some t0
                /\ step (Op "m") s =
                     Return (set_params []
                               (set_beats (beats s ++ [(x - t0)%float]) s)))).
Proof.
  intros Hpre L. split.
  - intros N.
    assert (T : t_start s = None)
      by (rewrite (cursor_unchanged pre init s); auto).
    assert (F : fails (step (Op "m") s)).
    { rewrite (step_m_beat s L). rewrite T. unfold fails.
      destruct (assert _); cbn; [|eauto].
      destruct (GraphicsMap_map _ _) as [[x y]|e]; cbn; eauto. }
    split; [exact F|]. destruct F as (e & F). exists e.
    apply scan_Raise. exact (run_Raise_at pre post _ init s e Hpre F).
  - intros B. pose proof (cursor_set pre init s Hpre B) as T.
    destruct (t_start s) as [t0|] eqn:Et; [clear T | congruence].
    rewrite (step_m_beat s L), Et. split; [|split].
    + destruct (List.length (params s) =? 2)%nat; cbn; [|discriminate].
      destruct (GraphicsMap_map _ _) as [[x y]|e] eqn:M; cbn;
        [discriminate|].
      apply GraphicsMap_map_Raise in M. congruence.
    + intros s' H. inv_res H. cbn. eexists. reflexivity.
    + intros x y Hlen Hmap. exists t0. split; [reflexivity|].
      rewrite Hlen, Hmap. reflexivity.
Qed.

(** ** Failures of ['Q'] and ['cm'] *)

(** C8. A ['Q'] met while [graphicstate] is empty raises [IndexError] (the
    [pop] of an empty list); the scan stops there, whatever follows, and
    returns neither [self.ecg] nor [self.beats]. *)
Theorem restore_underflow (pre post : list token) (s : state) :
  run pre init = Return s ->
  graphicstate s = [] ->
  step (Op "Q") s = Raise IndexError
  /\ _scan (pre ++ Op "Q" :: post) = Raise IndexError
  /\ (forall out, _scan (pre ++ Op "Q" :: post) <> Return out).
Proof.
  intros Hpre Hgs.
  assert (F : step (Op "Q") s = Raise IndexError).
  { cbn. unfold restore. rewrite Hgs. reflexivity. }
  assert (S : _scan (pre ++ Op "Q" :: post) = Raise IndexError).
  { apply scan_Raise. exact (run_Raise_at pre post _ init s _ Hpre F). }
  split; [exact F|]. split; [exact S|].
  intros out. rewrite S. discriminate.
Qed.

Lemma concat_matrix_test (ps : list num) :
  off_diagonal_nonzero ps ->
  (List.length ps =? 6)%nat && py_list_eq (py_slice ps 1 3) [PInt 0; PInt 0]
  = false.
Proof.
  intros H. destruct (List.length ps =? 6)%nat eqn:L; [|reflexivity].
  apply Nat.eqb_eq in L.
  destruct ps as [|a [|b [|c [|d [|e [|f [|g ps]]]]]]]; try discriminate.
  cbn. destruct H as [(x & N & Hx)|(x & N & Hx)];
    cbn in N; injection N as <-; rewrite Hx; cbn;
    [reflexivity | apply andb_false_r].
Qed.

(** C9. A ['cm'] whose second or third operand is not 0 fails its
    assertion, and the scan stops there without output; a ['cm'] with six
    operands of which the second and third equal 0 installs the map
    [(Sx, Sy, Tx, Ty)] made of operands 1, 4, 5 and 6. *)
Theorem concat_matrix_axis_aligned (pre post : list token) (s : state) :
  run pre init = Return s ->
  (off_diagonal_nonzero (params s) ->
     step (Op "cm") s = Raise AssertionError
     /\ _scan (pre ++ Op "cm" :: post) = Raise AssertionError)
  /\ (forall a b c d e f,
        params s = [a; b; c; d; e; f] ->
        py_eq b (PInt 0) = true -> py_eq c (PInt 0) = true ->
        step (Op "cm") s =
          Return (set_params [] (set_transform (mkGraphicsMap a d e f) s))).
Proof.
  intros Hpre. split.
  - intros N.
    assert (F : step (Op "cm") s = Raise AssertionError).
    { cbn. unfold concat_matrix. rewrite (concat_matrix_test _ N).
      reflexivity. }
    split; [exact F|].
    apply scan_Raise. exact (run_Raise_at pre post _ init s _ Hpre F).
  - intros a b c d e f Hp Hb Hc. cbn. unfold concat_matrix.
    rewrite Hp. cbn. rewrite Hb, Hc. reflexivity.
Qed.

(** ** The arrays of the result *)

Lemma imul_nth_error (a : list float) (c : float) (i : nat) :
  nth_error (imul a c) i
  = option_map (fun e => (e * c)%float) (nth_error a i).
Proof. apply nth_error_map. Qed.

(** C7. When the loop ends in the state [s], [_scan] returns [times] and
    [beats] with every element multiplied by [POINTS2MM / T_scale] and
    [trace] with every element multiplied by [POINTS2MM / V_scale], index
    by index and with the lengths kept; the constants are 25.4/72.0, 25
    and 10. *)
Theorem finalize_scaling (data : list token) (s : state) :
  run data init = Return s ->
  exists out,
    _scan data = Return out
    /\ (forall i, nth_error (fst (self_ecg out)) i
                  = option_map (fun raw => raw * (25.4 / 72.0 / 25))%float
                               (nth_error (times s) i))
    /\ (forall i, nth_error (snd (self_ecg out)) i
                  = option_map (fun raw => raw * (25.4 / 72.0 / 10))%float
                               (nth_error (trace s) i))
    /\ (forall i, nth_error (self_beats out) i
                  = option_map (fun raw => raw * (25.4 / 72.0 / 25))%float
                               (nth_error (beats s) i))
    /\ POINTS2MM = (25.4 / 72.0)%float
    /\ T_scale = 25%float /\ V_scale = 10%float.
Proof.
  intros H. exists (finalize s). unfold _scan. rewrite H. cbn [bind].
  split; [reflexivity|].
  repeat split; intros i; cbn [finalize self_ecg self_beats fst snd];
    rewrite imul_nth_error; reflexivity.
Qed.

(** ** The border block *)

(** C2, as stated, fails: from the initial state the outer save advances
    [stage] to 1 only, the width 0.4 is not recognized at stage 1, and the
    border values stay unset. *)
Lemma border_block_from_init :
  exists s, run border_block init = Return s
            /\ stage s = 1 /\ linestate s = 0
            /\ X_min s = None /\ X_max s = None /\ T_width s = None.
Proof. eexists. split; [vm_compute; reflexivity|]. cbn. repeat split. Qed.

Lemma step_Q_snoc (s : state) (gs : list GraphicsMap) (t : GraphicsMap) :
  graphicstate s = gs ++ [t] ->
  step (Op "Q") s =
    Return (set_params []
      (set_level (level s - 1)
        (set_linestate (if linestate s =? 0 then linestate s
                        else linestate s + 1)
          (set_transform t (set_graphicstate gs s))))).
Proof.
  intros E. cbn. unfold restore. rewrite E, py_pop_snoc. reflexivity.
Qed.

(** C2, amended. From a state at stage 1 and nesting depth 0 (as the one
    that a first top-level [q Q] block leaves), with no pending operands and
    the width of the border not yet measured, the block advances [stage] to
    2, takes the border role, and leaves [X_min = 0], [X_max = 100] and
    [T_width = 100]; the two restores bring the role to 3. *)
Theorem border_block_stage_1 (s : state) :
  stage s = 1 -> level s = 0 -> params s = [] -> T_width s = None ->
  exists s',
    run border_block s = Return s'
    /\ stage s' = 2 /\ linestate s' = 3
    /\ X_min s' = Some 0%float /\ X_max s' = Some 100%float
    /\ T_width s' = Some 100%float.
Proof.
  intros Hst Hlv Hp Hw.
  destruct s as [st lv it ps tr gs ls xmin xmax tw ts sub ot ob tm tc bt].
  cbn in Hst, Hlv, Hp, Hw. subst.
  change border_block
    with (firstn 18 border_block ++ [Op "Q"; Op "Q"]).
  rewrite run_app.
  match goal with
  | |- context [run (firstn 18 border_block) ?s0] =>
      assert (E : run (firstn 18 border_block) s0 =
                  Return (mkState 2 2 it []
                            (mkGraphicsMap (PInt 1) (PInt (-1)) (PInt 0)
                                           (PInt 0))
                            ((gs ++ [tr]) ++ [GraphicsMap_default])
                            1 (Some 0%float) (Some 100%float)
                            (Some 100%float) ts sub ot ob tm tc bt))
        by (vm_compute; reflexivity);
      rewrite E; clear E
  end.
  cbn [bind]. rewrite run_cons.
  erewrite step_Q_snoc by reflexivity. cbn [bind]. rewrite run_cons.
  erewrite step_Q_snoc by reflexivity. cbn [bind].
  eexists. split; [reflexivity|]. cbn. repeat split.
Qed.

(** ** The origin of a subtrace *)

Lemma py_getitem_out {A : Type} (l : list A) (i : Z) :
  l = [] \/ Z.of_nat (List.length l) <= i ->
  py_getitem l i = Raise IndexError.
Proof.
  intros H. unfold py_getitem.
  set (n := Z.of_nat (List.length l)) in *.
  assert (Hn : n = 0 \/ n <= i)
    by (destruct H as [-> | H]; [left; reflexivity | right; exact H]).
  assert (H0 : 0 <= n) by (unfold n; lia).
  destruct (Z.ltb_spec i 0) as [Ei|Ei].
  - assert (T : (i + n <? 0) = true) by (apply Z.ltb_lt; lia).
    rewrite T. reflexivity.
  - assert (T : (n <=? i) = true) by (apply Z.leb_le; lia).
    rewrite T, orb_true_r. reflexivity.
Qed.

(** C5, as stated, fails: with [subtrace = -1] and one origin recorded,
    index [-1] selects the last origin, the trace-role ['m'] succeeds and
    the scan returns a sample. *)
Lemma origin_lookup_wraps :
  exists s,
    run calibration_closed init = Return s
    /\ linestate s = 22 /\ subtrace s = -1
    /\ origins_trace s = [50%float]
    /\ ~ (0 <= subtrace s < Z.of_nat (List.length (origins_trace s)))
    /\ succeeds (step (Op "m") s)
    /\ _scan (calibration_closed ++ [Op "m"])
       = Return {| self_ecg := ([0%float],
                                [(25 * (POINTS2MM / V_scale))%float]);
                   self_beats := [] |}.
Proof.
  eexists. split; [vm_compute; reflexivity|].
  cbn [linestate subtrace origins_trace List.length].
  repeat split; try lia.
  - eexists. vm_compute. reflexivity.
Qed.

(** C5, amended. Under role 22, a ['m'] or an ['l'] met while
    [origins_trace] is empty or [subtrace] is at least its length fails,
    and the scan with it, so that nothing is returned; the exception is
    the [IndexError] of the lookup when the operator has two operands that
    the transform maps and the cursor arithmetic is defined. *)
Theorem trace_origin_missing (pre post : list token) (d : string)
        (s : state) :
  run pre init = Return s ->
  linestate s = 22 ->
  d = "m"%string \/ d = "l"%string ->
  origins_trace s = []
  \/ Z.of_nat (List.length (origins_trace s)) <= subtrace s ->
  fails (step (Op d) s)
  /\ fails (_scan (pre ++ Op d :: post))
  /\ (forall out, _scan (pre ++ Op d :: post) <> Return out)
  /\ (forall x y,
        (List.length (params s) =? 2)%nat = true ->
        GraphicsMap_map (transform s) (params s) = Return (x, y) ->
        cursor_ready d s ->
        step (Op d) s = Raise IndexError
        /\ _scan (pre ++ Op d :: post) = Raise IndexError).
Proof.
  intros Hpre L Hd Hout.
  pose proof (py_getitem_out _ _ Hout) as G.
  assert (F : fails (step (Op d) s)).
  { destruct (step (Op d) s) as [s'|e] eqn:H; [exfalso | exists e; reflexivity].
    destruct Hd as [-> | ->]; cbn in H; unfold_operator; rewrite L in H;
      cbn in H; inv_res H; cbn in *; congruence. }
  assert (S : fails (_scan (pre ++ Op d :: post))).
  { destruct F as (e & F). exists e. apply scan_Raise.
    exact (run_Raise_at pre post _ init s e Hpre F). }
  split; [exact F|]. split; [exact S|]. split.
  - intros out. destruct S as (e & ->). discriminate.
  - intros x y Hlen Hmap R.
    assert (F' : step (Op d) s = Raise IndexError).
    { unfold cursor_ready in R.
      destruct Hd as [-> | ->]; cbn; unfold_operator; rewrite L, Hlen, Hmap;
        cbn; destruct (t_start s) as [t0|]; cbn.
      - destruct R as [R|R]; [discriminate|].
        destruct (T_width s); [|congruence]. cbn. rewrite G. reflexivity.
      - rewrite G. reflexivity.
      - rewrite G. reflexivity.
      - discriminate. }
    split; [exact F'|].
    apply scan_Raise. exact (run_Raise_at pre post _ init s _ Hpre F').
Qed.

(** ** Time across subtraces *)

Lemma step_T_width (tok : token) (s s' : state) (w : float) :
  step tok s = Return s' -> T_width s = Some w -> T_width s' = Some w.
Proof.
  intros H W. destruct tok as [v|d]; cbn in H.
  - inv_res H. exact W.
  - destruct (operator_view d s); unfold_operator; inv_res H; cbn;
      congruence.
Qed.

Lemma run_T_width (toks : list token) (s s' : state) (w : float) :
  run toks s = Return s' -> T_width s = Some w -> T_width s' = Some w.
Proof.
  revert s. induction toks as [|tok toks IH]; intros s H W.
  - cbn in H. inv_res H. exact W.
  - rewrite run_cons in H. apply bind_Return in H.
    destruct H as (s1 & H1 & H). apply (IH s1 H).
    exact (step_T_width _ _ _ _ H1 W).
Qed.

(** A step that is not a trace-role move, with the cursor at [c]: [times]
    gains [x - c] for the abscissa [x] of a trace-role line, and nothing
    otherwise. *)
Lemma step_times_line (tok : token) (s s' : state) (c : float) :
  step tok s = Return s' ->
  (is_op "m" tok && (linestate s =? 22)) = false ->
  t_start s = Some c ->
  times s' = times s ++ List.map (fun x => (x - c)%float) (line_abscissa tok s).
Proof.
  intros H Hm T. unfold line_abscissa. destruct tok as [v|d]; cbn in H.
  - inv_res H. cbn. symmetry. apply app_nil_r.
  - destruct (operator_view d s) as [| | | | | | | |d N1 N2 N3 N4];
      unfold_operator; inv_res H; cbn - [Z.eqb] in Hm |- *;
      prop_tests; decide_tests;
      try (symmetry; apply app_nil_r); try congruence.
    1: match goal with
       | P : py_sub ?x (t_start ?a) = Return _ |- _ =>
           rewrite T in P; cbn in P; injection P as <-; reflexivity
       end.
    all: destruct (String.eqb_spec d "l"); [contradiction|];
      cbn; symmetry; apply app_nil_r.
Qed.

Lemma run_times_lines (mid : list token) (s1 s2 : state) (c : float) :
  run mid s1 = Return s2 ->
  ~ trace_move_before mid s1 ->
  t_start s1 = Some c ->
  times s2
  = times s1 ++ List.map (fun x => (x - c)%float) (line_abscissas mid s1).
Proof.
  revert s1. induction mid as [|tok mid IH]; intros s1 H N T.
  - cbn in H. inv_res H. cbn. symmetry. apply app_nil_r.
  - rewrite run_cons in H. apply bind_Return in H.
    destruct H as (s & H1 & H).
    assert (Hm : (is_op "m" tok && (linestate s1 =? 22)) = false).
    { destruct (is_op "m" tok) eqn:Em; [|reflexivity].
      destruct tok as [v|d]; [discriminate|].
      cbn in Em. apply String.eqb_eq in Em. subst d.
      cbn. apply Z.eqb_neq. intros L. apply N.
      exists [], mid, s1. repeat split. exact L. }
    assert (N' : ~ trace_move_before mid s).
    { intros (p1 & p2 & s3 & -> & R & L). apply N.
      exists (tok :: p1), p2, s3. repeat split; [|exact L].
      rewrite run_cons, H1. exact R. }
    assert (T' : t_start s = Some c)
      by (rewrite (step_t_start_same _ _ _ H1 Hm); exact T).
    cbn [line_abscissas]. rewrite H1, (IH s H N' T').
    rewrite (step_times_line _ _ _ _ H1 Hm T), map_app, app_assoc.
    reflexivity.
Qed.

(** A trace-role move that succeeds: the first one sets the cursor to [x]
    and records 0.0; a later one moves the cursor back by [T_width] and
    records [x] minus the new cursor. *)
Lemma step_m_trace (s s' : state) :
  linestate s = 22 ->
  step (Op "m") s = Return s' ->
  exists x y,
    GraphicsMap_map (transform s) (params s) = Return (x, y)
    /\ match t_start s with
       | None => t_start s' = Some x /\ times s' = times s ++ [0%float]
       | Some t0 =>
           exists w, T_width s = Some w
             /\ t_start s' = Some (t0 - w)%float
             /\ times s' = times s ++ [(x - (t0 - w))%float]
       end.
Proof.
  intros L H. cbn in H. unfold_operator. rewrite L in H. cbn in H.
  inv_res H; eexists; eexists; (split; [reflexivity|]); cbn.
  - match goal with
    | P : py_sub _ (T_width s) = Return _ |- _ =>
        destruct (T_width s) as [w|]; [|discriminate P];
        cbn in P; injection P as <-; exists w; repeat split
    end.
  - split; reflexivity.
Qed.

(** C1, as stated, fails in its last clause: the first subtrace ends on the
    right border and records the time 100; the move that starts the second
    subtrace records 100 as well, which is not strictly greater. *)
Lemma second_subtrace_repeats_time :
  let s := state_after first_subtrace_start in
  let s1 := state_after (first_subtrace_start ++ [Op "m"]) in
  let s2 := state_after (first_subtrace_start
                           ++ Op "m" :: first_subtrace_rest) in
  let s3 := state_after (first_subtrace_start ++ Op "m" :: first_subtrace_rest
                           ++ [Op "m"]) in
  run first_subtrace_start init = Return s
  /\ linestate s = 22 /\ T_width s = Some 100%float /\ t_start s = None
  /\ step (Op "m") s = Return s1
  /\ t_start s1 = Some 10%float /\ times s1 = [0%float]
  /\ run first_subtrace_rest s1 = Return s2
  /\ linestate s2 = 22 /\ subtrace s2 = 1
  /\ times s2 = [0; 100]%float
  /\ step (Op "m") s2 = Return s3
  /\ t_start s3 = Some (-90)%float
  /\ times s3 = [0; 100; 100]%float
  /\ ~ Forall (fun t => (t <? 100)%float = true) (times s2).
Proof.
  cbv zeta. repeat apply conj; try (vm_compute; reflexivity).
  intros A. replace (times _) with [0; 100]%float in A
    by (vm_compute; reflexivity).
  inversion A as [|? ? _ B]. inversion B as [|? ? C _]. discriminate C.
Qed.

(** ** Binary64: [x - 10] against 100 *)

(** The number of binary digits of a mantissa. *)
Lemma digits2_pos_bounds (p : positive) :
  2 ^ (Z.pos (digits2_pos p) - 1) <= Z.pos p < 2 ^ Z.pos (digits2_pos p).
Proof.
  induction p as [p IH|p IH|]; cbn [digits2_pos].
  - rewrite Pos2Z.inj_succ.
    replace (Z.succ (Z.pos (digits2_pos p)) - 1) with (Z.succ (Z.pos (digits2_pos p) - 1)) by lia.
    rewrite !Z.pow_succ_r by lia. lia.
  - rewrite Pos2Z.inj_succ.
    replace (Z.succ (Z.pos (digits2_pos p)) - 1) with (Z.succ (Z.pos (digits2_pos p) - 1)) by lia.
    rewrite !Z.pow_succ_r by lia. lia.
  - cbn. lia.
Qed.

Lemma digits2_pos_unique (p : positive) (j : Z) :
  2 ^ (j - 1) <= Z.pos p < 2 ^ j -> Z.pos (digits2_pos p) = j.
Proof.
  intros [L U]. pose proof (digits2_pos_bounds p) as [L' U'].
  set (d := Z.pos (digits2_pos p)) in *.
  assert (0 < d) by (unfold d; lia).
  assert (0 < j).
  { destruct (Z.ltb_spec 0 j) as [|N]; [assumption|exfalso].
    assert (2 ^ j <= 1).
    { destruct (Z.eq_dec j 0) as [->|]; [cbn; lia|].
      rewrite Z.pow_neg_r by lia. lia. }
    lia. }
  destruct (Z.lt_trichotomy d j) as [Lt|[Eq|Gt]]; [exfalso|exact Eq|exfalso].
  - assert (2 ^ d <= 2 ^ (j - 1)) by (apply Z.pow_le_mono_r; lia). lia.
  - assert (2 ^ j <= 2 ^ (d - 1)) by (apply Z.pow_le_mono_r; lia). lia.
Qed.

(** Shifts to the right are halvings. *)
Lemma iter_pos_nat {A : Type} (f : A -> A) (p : positive) (x : A) :
  iter_pos f p x = Nat.iter (Pos.to_nat p) f x.
Proof.
  revert x. induction p as [p IH|p IH|]; intros x; cbn [iter_pos].
  - rewrite !IH, Pos2Nat.inj_xI, <- Nat.iter_add.
    replace (S (2 * Pos.to_nat p)) with (S (Pos.to_nat p + Pos.to_nat p)) by lia.
    rewrite Nat.iter_succ_r. reflexivity.
  - rewrite !IH, Pos2Nat.inj_xO, <- Nat.iter_add.
    replace (2 * Pos.to_nat p)%nat with (Pos.to_nat p + Pos.to_nat p)%nat by lia.
    reflexivity.
  - reflexivity.
Qed.

Lemma shr_1_m (mrs : shr_record) :
  0 <= shr_m mrs ->
  shr_m (shr_1 mrs) = shr_m mrs / 2 /\ 0 <= shr_m (shr_1 mrs).
Proof.
  destruct mrs as [m r s]. cbn [shr_m]. intros P.
  destruct m as [|[p|p|]|p]; cbn [shr_1 shr_m]; try lia.
  all: split; try lia; try reflexivity.
  - rewrite Pos2Z.inj_xI.
    apply Z.div_unique with (r := 1); lia.
  - rewrite Pos2Z.inj_xO.
    apply Z.div_unique with (r := 0); lia.
Qed.

Lemma shr_1_exact (mrs : shr_record) :
  0 <= shr_m mrs -> exact_record mrs -> (2 | shr_m mrs) ->
  exact_record (shr_1 mrs).
Proof.
  destruct mrs as [m r s]. unfold exact_record. cbn [shr_m shr_r shr_s].
  intros P [-> ->] [q E].
  destruct m as [|[p|p|]|p]; cbn; try lia; auto.
Qed.

Lemma iter_shr_1 (k : nat) (mrs : shr_record) :
  0 <= shr_m mrs ->
  shr_m (Nat.iter k shr_1 mrs) = shr_m mrs / 2 ^ Z.of_nat k
  /\ 0 <= shr_m (Nat.iter k shr_1 mrs)
  /\ (exact_record mrs -> (2 ^ Z.of_nat k | shr_m mrs) ->
      exact_record (Nat.iter k shr_1 mrs)).
Proof.
  intros P. induction k as [|k IH].
  - cbn. rewrite Z.div_1_r. auto.
  - destruct IH as (M & N & X).
    change (Nat.iter (S k) shr_1 mrs) with (shr_1 (Nat.iter k shr_1 mrs)).
    destruct (shr_1_m _ N) as (M1 & N1).
    split; [|split; [exact N1|]].
    + rewrite M1, M, Nat2Z.inj_succ, Z.pow_succ_r by lia.
      rewrite Z.div_div by lia. f_equal. lia.
    + intros Ex D. rewrite Nat2Z.inj_succ, Z.pow_succ_r in D by lia.
      apply shr_1_exact; [exact N| |].
      * apply X; [exact Ex|]. destruct D as [q D]. exists (q * 2). lia.
      * rewrite M. destruct D as [q D]. exists q.
        rewrite D. replace (q * (2 * 2 ^ Z.of_nat k)) with ((q * 2) * 2 ^ Z.of_nat k) by lia.
        rewrite Z.div_mul by lia. lia.
Qed.

(** [shr] on a non-negative mantissa *)
Lemma shr_spec (mrs : shr_record) (e n : Z) :
  0 <= shr_m mrs -> 0 <= n ->
  shr_m (fst (shr mrs e n)) = shr_m mrs / 2 ^ n
  /\ 0 <= shr_m (fst (shr mrs e n))
  /\ snd (shr mrs e n) = e + n
  /\ (exact_record mrs -> (2 ^ n | shr_m mrs) ->
      exact_record (fst (shr mrs e n))).
Proof.
  intros P N. unfold shr. destruct n as [|p|p]; [| |lia].
  - cbn. rewrite Z.div_1_r, Z.add_0_r. auto.
  - cbn [fst snd]. rewrite iter_pos_nat.
    destruct (iter_shr_1 (Pos.to_nat p) mrs P) as (A & B & C).
    rewrite positive_nat_Z in A, C. auto.
Qed.

Lemma fexp_normal (z : Z) :
  -1021 <= z -> SpecFloat.fexp prec emax z = z - 53.
Proof. unfold SpecFloat.fexp, SpecFloat.emin, prec, emax. lia. Qed.

Lemma shr_m_of_loc (m : Z) (l : location) : shr_m (shr_record_of_loc m l) = m.
Proof. destruct l as [|[| |]]; reflexivity. Qed.

Lemma shr_nonneg (mrs : shr_record) (e n : Z) :
  0 <= shr_m mrs -> 0 <= shr_m (fst (shr mrs e n)).
Proof.
  intros P. destruct n as [|p|p]; try exact P.
  apply (shr_spec mrs e (Z.pos p) P). lia.
Qed.

Lemma round_nearest_even_range (m : Z) (l : location) :
  m <= round_nearest_even m l <= m + 1.
Proof.
  destruct l as [|[| |]]; cbn; try lia. destruct (Z.even m); lia.
Qed.

Lemma loc_of_exact (mrs : shr_record) :
  exact_record mrs -> loc_of_shr_record mrs = loc_Exact.
Proof. destruct mrs as [m r s]. intros [E1 E2]. cbn in *. subst. reflexivity. Qed.

(** A mantissa that needs no shift is kept. *)
Lemma round_aux_keep (sx : bool) (m : positive) (e : Z) :
  SpecFloat.fexp prec emax (Z.pos (digits2_pos m) + e) = e -> e <= 971 ->
  binary_round_aux prec emax sx (Z.pos m) e loc_Exact = S754_finite sx m e.
Proof.
  intros F B. unfold binary_round_aux, shr_fexp.
  cbn [Zdigits2 shr_record_of_loc]. rewrite F, Z.sub_diag.
  cbn [shr shr_m loc_of_shr_record round_nearest_even Zdigits2
       shr_record_of_loc].
  rewrite F, Z.sub_diag. cbn [shr shr_m].
  replace (e <=? emax - prec) with true; [reflexivity|].
  symmetry. apply Z.leb_le. unfold emax, prec. lia.
Qed.

(** The sign of a rounded number is that of the number. *)
Lemma round_aux_sign (sx : bool) (m : positive) (e : Z) :
  let r := binary_round_aux prec emax sx (Z.pos m) e loc_Exact in
  r = S754_zero sx \/ r = S754_infinity sx
  \/ exists m' e', r = S754_finite sx m' e'.
Proof.
  cbv zeta. unfold binary_round_aux, shr_fexp.
  set (n1 := _ - e).
  destruct (shr (shr_record_of_loc (Z.pos m) loc_Exact) e n1) as [mrs1 e1] eqn:E1.
  assert (P1 : 0 <= shr_m mrs1).
  { change mrs1 with (fst (mrs1, e1)). rewrite <- E1.
    apply shr_nonneg. cbn. lia. }
  set (mr := round_nearest_even (shr_m mrs1) (loc_of_shr_record mrs1)).
  assert (Pr : 0 <= mr)
    by (pose proof (round_nearest_even_range (shr_m mrs1) (loc_of_shr_record mrs1)); unfold mr; lia).
  set (n2 := _ - e1).
  destruct (shr (shr_record_of_loc mr loc_Exact) e1 n2) as [mrs2 e2] eqn:E2.
  assert (P2 : 0 <= shr_m mrs2).
  { change mrs2 with (fst (mrs2, e2)). rewrite <- E2.
    apply shr_nonneg. cbn. exact Pr. }
  destruct (shr_m mrs2) as [|p|p]; [auto| |lia].
  destruct (e2 <=? emax - prec); eauto.
Qed.

Lemma binary_round_sign (sx : bool) (m : positive) (e : Z) :
  let r := binary_round prec emax sx m e in
  r = S754_zero sx \/ r = S754_infinity sx
  \/ exists m' e', r = S754_finite sx m' e'.
Proof.
  cbv zeta. unfold binary_round.
  destruct (shl_align m e _) as [mz ez]. apply round_aux_sign.
Qed.

(** The first shift of a mantissa of [53 + n] digits. *)
Lemma first_shift (m : positive) (e n : Z) (l : location) :
  0 < n -> Z.pos (digits2_pos m) = 53 + n -> -1021 <= 53 + n + e ->
  let res := shr_fexp prec emax (Z.pos m) e l in
  shr_m (fst res) = Z.pos m / 2 ^ n
  /\ 2 ^ 52 <= shr_m (fst res) < 2 ^ 53
  /\ snd res = e + n
  /\ (l = loc_Exact -> (2 ^ n | Z.pos m) ->
      loc_of_shr_record (fst res) = loc_Exact).
Proof.
  intros N D R. cbv zeta. unfold shr_fexp. cbn [Zdigits2].
  rewrite D, fexp_normal by lia.
  replace (53 + n + e - 53 - e) with n by lia.
  destruct (shr_spec (shr_record_of_loc (Z.pos m) l) e n) as (A & _ & C & X);
    [rewrite shr_m_of_loc; lia | lia |].
  rewrite shr_m_of_loc in A, X.
  split; [exact A|]. split; [|split; [exact C|]].
  - rewrite A. pose proof (digits2_pos_bounds m) as [L U].
    rewrite D in L, U.
    replace (53 + n - 1) with (52 + n) in L by lia.
    rewrite Z.pow_add_r in L, U by lia.
    assert (0 < 2 ^ n) by (apply Z.pow_pos_nonneg; lia).
    split.
    + apply Z.div_le_lower_bound; lia.
    + apply Z.div_lt_upper_bound; lia.
  - intros -> Dv. apply loc_of_exact. apply X; [|exact Dv].
    split; reflexivity.
Qed.

(** A mantissa whose low bits are all 0 is shifted without rounding. *)
Lemma round_aux_exact (sx : bool) (m : positive) (e n : Z) :
  0 < n -> Z.pos (digits2_pos m) = 53 + n -> -1021 <= 53 + n + e ->
  e + n <= 971 -> (2 ^ n | Z.pos m) ->
  exists m1,
    Z.pos m1 = Z.pos m / 2 ^ n
    /\ binary_round_aux prec emax sx (Z.pos m) e loc_Exact
       = S754_finite sx m1 (e + n).
Proof.
  intros N D R B Dv. unfold binary_round_aux.
  destruct (first_shift m e n loc_Exact N D R) as (A & Rg & C & X).
  destruct (shr_fexp prec emax (Z.pos m) e loc_Exact) as [mrs1 e1].
  cbn [fst snd] in A, Rg, C, X. subst e1.
  rewrite (X eq_refl Dv). cbn [round_nearest_even].
  destruct (shr_m mrs1) as [|m1|m1] eqn:E1; try lia.
  exists m1. split; [exact A|].
  assert (D1 : Z.pos (digits2_pos m1) = 53)
    by (apply digits2_pos_unique; cbn in Rg |- *; lia).
  unfold shr_fexp. cbn [Zdigits2 shr_record_of_loc].
  rewrite D1, fexp_normal by lia.
  replace (53 + (e + n) - 53 - (e + n)) with 0 by lia.
  cbn [shr shr_m].
  replace (e + n <=? emax - prec) with true; [reflexivity|].
  symmetry. apply Z.leb_le. unfold emax, prec. lia.
Qed.

(** A rounded mantissa of [53 + n] digits keeps an exponent of at least
    [e + n]. *)
Lemma round_aux_lower (sx : bool) (m : positive) (e n : Z) :
  0 < n -> Z.pos (digits2_pos m) = 53 + n -> -1021 <= 53 + n + e ->
  let r := binary_round_aux prec emax sx (Z.pos m) e loc_Exact in
  r = S754_infinity sx
  \/ exists m' e', r = S754_finite sx m' e' /\ e + n <= e'.
Proof.
  intros N D R. cbv zeta. unfold binary_round_aux.
  destruct (first_shift m e n loc_Exact N D R) as (A & Rg & C & _).
  destruct (shr_fexp prec emax (Z.pos m) e loc_Exact) as [mrs1 e1].
  cbn [fst snd] in A, Rg, C. subst e1.
  pose proof (round_nearest_even_range (shr_m mrs1) (loc_of_shr_record mrs1))
    as Rr.
  set (mr := round_nearest_even (shr_m mrs1) (loc_of_shr_record mrs1)) in *.
  destruct mr as [|pr|pr] eqn:Er; try lia.
  assert (Dr : Z.pos (digits2_pos pr) = 53 \/ Z.pos (digits2_pos pr) = 54).
  { destruct (Z.eq_dec (Z.pos pr) (2 ^ 53)) as [E|E].
    - right. apply digits2_pos_unique. rewrite E. cbn. lia.
    - left. apply digits2_pos_unique. cbn in Rg |- *. lia. }
  unfold shr_fexp. cbn [Zdigits2].
  set (n2 := _ - (e + n)).
  assert (N2 : (n2 = 0 /\ Z.pos pr < 2 ^ 53) \/ (n2 = 1 /\ 2 ^ 53 <= Z.pos pr)).
  { pose proof (digits2_pos_bounds pr) as [L U].
    unfold n2. destruct Dr as [Dr | Dr]; rewrite Dr in *;
      rewrite fexp_normal by lia; [left | right]; split; try lia;
      cbn in L, U |- *; lia. }
  clearbody n2.
  destruct (shr_spec (shr_record_of_loc (Z.pos pr) loc_Exact) (e + n) n2)
    as (A2 & _ & C2 & _); [cbn; lia | lia |].
  destruct (shr _ (e + n) n2) as [mrs2 e2]. cbn [fst snd] in A2, C2.
  cbn [shr_record_of_loc shr_m] in A2.
  assert (P2 : 2 ^ 52 <= shr_m mrs2).
  { rewrite A2. destruct N2 as [[-> _] | [-> L]].
    - rewrite Z.div_1_r. cbn in Rg |- *. lia.
    - change (2 ^ 1) with 2. apply Z.div_le_lower_bound; [lia|].
      cbn in L |- *. lia. }
  destruct (shr_m mrs2) as [|p2|p2]; cbn in P2; try lia.
  destruct (e2 <=? emax - prec); [right|left; reflexivity].
  exists p2, e2. split; [reflexivity | lia].
Qed.

Lemma iter_xO_val (m q : positive) :
  Z.pos (Pos.iter xO m q) = Z.pos m * 2 ^ Z.pos q.
Proof.
  induction q as [|q IH] using Pos.peano_ind.
  - cbn. lia.
  - rewrite Pos.iter_succ, Pos2Z.inj_xO, IH, Pos2Z.inj_succ,
      Z.pow_succ_r by lia. lia.
Qed.

Lemma shl_align_val (m : positive) (e ez : Z) :
  ez <= e ->
  Z.pos (fst (shl_align m e ez)) = Z.pos m * 2 ^ (e - ez).
Proof.
  intros L. unfold shl_align. destruct (ez - e) as [|p|p] eqn:E; try lia.
  - replace (e - ez) with 0 by lia. cbn [fst]. lia.
  - cbn [fst]. rewrite iter_xO_val. f_equal. f_equal. lia.
Qed.

Lemma SFltb_finite (m m' : positive) (e e' : Z) :
  SFltb (S754_finite false m e) (S754_finite false m' e')
  = if e <? e' then true
    else if e =? e' then Z.pos m <? Z.pos m' else false.
Proof.
  unfold SFltb, SFcompare.
  destruct (Z.compare_spec e e') as [E|L|G].
  - subst. rewrite Z.ltb_irrefl, Z.eqb_refl.
    change (Pos.compare_cont Eq m m') with (Z.pos m ?= Z.pos m').
    unfold Z.ltb. destruct (Z.pos m ?= Z.pos m'); reflexivity.
  - apply Z.ltb_lt in L. rewrite L. reflexivity.
  - assert (A : (e <? e') = false) by (apply Z.ltb_ge; lia).
    assert (B : (e =? e') = false) by (apply Z.eqb_neq; lia).
    rewrite A, B. reflexivity.
Qed.


Lemma shl_align_exp (m : positive) (e ez : Z) :
  ez <= e -> snd (shl_align m e ez) = ez.
Proof.
  intros L. unfold shl_align. destruct (ez - e) as [|p|p] eqn:E; try lia.
  - cbn [snd]. lia.
  - reflexivity.
Qed.

(** Rounding a positive multiple of [2^-49], against 100. *)
Lemma round_against_100 (M : positive) (d : Z) :
  d = Z.pos (digits2_pos M) ->
  let r := binary_round prec emax false M (-49) in
  (d <= 55 -> (53 < d -> (2 ^ (d - 53) | Z.pos M)) -> SFltb r SF100 = true)
  /\ (d = 56 -> (8 | Z.pos M) ->
      SFltb r SF100 = (Z.pos M / 8 <? 7036874417766400))
  /\ (57 <= d -> SFltb r SF100 = false).
Proof.
  intros Hd. cbv zeta.
  pose proof (digits2_pos_bounds M) as [L U]. rewrite <- Hd in L, U.
  assert (Dpos : 0 < d) by (subst d; lia).
  unfold binary_round. rewrite <- Hd.
  rewrite (fexp_normal (d + -49)) by lia.
  assert (Big : 53 < d ->
                shl_align M (-49) (d + -49 - 53) = (M, -49)).
  { intros B. unfold shl_align.
    destruct (d + -49 - 53 - -49) as [|p|p] eqn:E; try lia; reflexivity. }
  split; [|split].
  - intros D X. destruct (Z.le_gt_cases d 53) as [S|B].
    + (* no rounding: the mantissa is aligned on 53 digits *)
      pose proof (shl_align_val M (-49) (d + -49 - 53)) as A.
      pose proof (shl_align_exp M (-49) (d + -49 - 53)) as A'.
      destruct (shl_align M (-49) (d + -49 - 53)) as [mz ez].
      cbn [fst snd] in A, A'. rewrite A' by lia.
      assert (V : Z.pos mz = Z.pos M * 2 ^ (53 - d))
        by (rewrite A by lia; f_equal; f_equal; lia).
      assert (Dz : Z.pos (digits2_pos mz) = 53).
      { apply digits2_pos_unique. rewrite V.
        assert (P : 0 < 2 ^ (53 - d)) by (apply Z.pow_pos_nonneg; lia).
        replace (2 ^ (53 - 1)) with (2 ^ (d - 1) * 2 ^ (53 - d))
          by (rewrite <- Z.pow_add_r by lia; f_equal; lia).
        replace (2 ^ 53) with (2 ^ d * 2 ^ (53 - d))
          by (rewrite <- Z.pow_add_r by lia; f_equal; lia).
        split; [apply Z.mul_le_mono_nonneg_r | apply Z.mul_lt_mono_pos_r];
          lia. }
      rewrite round_aux_keep by (rewrite ?Dz, ?fexp_normal; lia).
      unfold SF100. rewrite SFltb_finite.
      replace (d + -49 - 53 <? -46) with true
        by (symmetry; apply Z.ltb_lt; lia).
      reflexivity.
    + rewrite (Big B).
      destruct (round_aux_exact false M (-49) (d - 53)) as (m1 & _ & ->);
        try lia; [apply X; lia|].
      unfold SF100. rewrite SFltb_finite.
      replace (-49 + (d - 53) <? -46) with true
        by (symmetry; apply Z.ltb_lt; lia).
      reflexivity.
  - intros D X. rewrite Big by lia.
    destruct (round_aux_exact false M (-49) 3) as (m1 & V & ->);
      try lia; [exact X|].
    unfold SF100. rewrite SFltb_finite.
    change (-49 + 3 <? -46) with false. change (-49 + 3 =? -46) with true.
    cbv iota. rewrite V. reflexivity.
  - intros D. rewrite Big by lia.
    destruct (round_aux_lower false M (-49) (d - 53))
      as [-> | (m' & e' & -> & Le)]; try lia; [reflexivity|].
    unfold SF100. rewrite SFltb_finite.
    replace (e' <? -46) with false by (symmetry; apply Z.ltb_ge; lia).
    replace (e' =? -46) with false by (symmetry; apply Z.eqb_neq; lia).
    reflexivity.
Qed.

Lemma digits2_pos_le (p : positive) (j : Z) :
  0 <= j -> Z.pos p < 2 ^ j -> Z.pos (digits2_pos p) <= j.
Proof.
  intros J U. pose proof (digits2_pos_bounds p) as [L _].
  destruct (Z.le_gt_cases (Z.pos (digits2_pos p)) j) as [|G]; [assumption|].
  exfalso. assert (2 ^ j <= 2 ^ (Z.pos (digits2_pos p) - 1))
    by (apply Z.pow_le_mono_r; lia). lia.
Qed.

Lemma digits2_pos_gt (p : positive) (j : Z) :
  2 ^ j <= Z.pos p -> j < Z.pos (digits2_pos p).
Proof.
  intros L. pose proof (digits2_pos_bounds p) as [_ U].
  destruct (Z.lt_ge_cases j (Z.pos (digits2_pos p))) as [|G]; [assumption|].
  exfalso. assert (2 ^ Z.pos (digits2_pos p) <= 2 ^ j)
    by (apply Z.pow_le_mono_r; lia). lia.
Qed.

Lemma pow2_divide (n j x : Z) :
  0 <= n <= j -> (2 ^ j | x) -> (2 ^ n | x).
Proof.
  intros R [q E]. exists (q * 2 ^ (j - n)).
  rewrite E, <- Z.mul_assoc, <- Z.pow_add_r by lia. do 2 f_equal. lia.
Qed.

Lemma round_negative (p : positive) (e : Z) :
  SFltb (binary_round prec emax true p e) SF100 = true.
Proof.
  destruct (binary_round_sign true p e) as [-> | [-> | (m' & e' & ->)]];
    reflexivity.
Qed.

Ltac split_sign p E :=
  match goal with
  | |- context [binary_normalize _ _ ?M _ _] => destruct M as [|p|p] eqn:E
  end.

(** On binary64 numbers, [x - 10 < 100] exactly when [x < 110]. *)
Lemma SF_sub_10_lt_100 (sx : spec_float) :
  valid_binary sx = true ->
  SFltb (SF64sub sx SF10) SF100 = SFltb sx SF110.
Proof.
  intros V. destruct sx as [s|s| |s m e].
  - destruct s; reflexivity.
  - destruct s; reflexivity.
  - reflexivity.
  - cbn in V. unfold bounded, canonical_mantissa in V.
    apply andb_true_iff in V. destruct V as [C B].
    apply Z.eqb_eq in C. apply Z.leb_le in B.
    unfold SpecFloat.fexp, SpecFloat.emin, prec, emax in C, B.
    pose proof (digits2_pos_bounds m) as [Lm Um].
    set (dm := Z.pos (digits2_pos m)) in *.
    assert (Dm : 0 < dm) by (unfold dm; lia). clearbody dm.
    unfold SF64sub, SFsub, SF10. cbv zeta.
    rewrite !shl_align_val by lia.
    destruct s; cbn [cond_Zopp].
    + (* a negative number *)
      assert (P1 : 0 < 2 ^ (e - Z.min e (-49))) by (apply Z.pow_pos_nonneg; lia).
      assert (P2 : 0 < 2 ^ (-49 - Z.min e (-49))) by (apply Z.pow_pos_nonneg; lia).
      split_sign p E; try lia.
      cbn [binary_normalize]. rewrite round_negative. reflexivity.
    + destruct (Z.lt_ge_cases e (-49)) as [Small|Large].
      * (* below 8 *)
        rewrite Z.min_l by lia. rewrite Z.sub_diag, Z.mul_1_r.
        assert (Um' : Z.pos m < 2 ^ 53).
        { assert (2 ^ dm <= 2 ^ 53) by (apply Z.pow_le_mono_r; lia). lia. }
        assert (P : 2 ^ 1 <= 2 ^ (-49 - e)) by (apply Z.pow_le_mono_r; lia).
        change (2 ^ 1) with 2 in P. change (2 ^ 53) with 9007199254740992 in Um'.
        split_sign p E; try lia.
        cbn [binary_normalize]. rewrite round_negative.
        unfold SF110. rewrite SFltb_finite.
        replace (e <? -46) with true by (symmetry; apply Z.ltb_lt; lia).
        reflexivity.
      * (* from 8 on: a mantissa of 53 digits *)
        rewrite Z.min_r by lia.
        assert (dm = 53) by lia. subst dm.
        change (2 ^ (53 - 1)) with 4503599627370496 in Lm.
        change (2 ^ 53) with 9007199254740992 in Um.
        change (-49 - -49) with 0. rewrite Z.mul_1_r.
        unfold SF110. rewrite SFltb_finite.
        assert (K : e = -49 \/ e = -48 \/ e = -47 \/ e = -46 \/ -45 <= e)
          by lia.
        destruct K as [-> | [-> | [-> | [-> | K]]]].
        -- (* [8, 16) *)
           change (-49 - -49) with 0. rewrite Z.mul_1_r.
           change (-49 <? -46) with true. cbv iota.
           split_sign p E.
           ++ reflexivity.
           ++ cbn [binary_normalize].
              apply (round_against_100 p _ eq_refl).
              ** apply Z.le_trans with 53; [|lia].
                 apply digits2_pos_le; [lia|].
                 change (2 ^ 53) with 9007199254740992. lia.
              ** intros D. exfalso.
                 assert (Z.pos (digits2_pos p) <= 53); [|lia].
                 apply digits2_pos_le; [lia|].
                 change (2 ^ 53) with 9007199254740992. lia.
           ++ cbn [binary_normalize]. apply round_negative.
        -- (* [16, 32) *)
           change (-48 - -49) with 1. change (2 ^ 1) with 2.
           change (-48 <? -46) with true. cbv iota.
           split_sign p E; try lia.
           cbn [binary_normalize].
           assert (D : Z.pos (digits2_pos p) <= 54).
           { apply digits2_pos_le; [lia|].
             change (2 ^ 54) with 18014398509481984. lia. }
           apply (round_against_100 p _ eq_refl); [lia|].
           intros D'. apply pow2_divide with 1; [lia|].
           exists (Z.pos m - 2814749767106560). lia.
        -- (* [32, 64) *)
           change (-47 - -49) with 2. change (2 ^ 2) with 4.
           change (-47 <? -46) with true. cbv iota.
           split_sign p E; try lia.
           cbn [binary_normalize].
           assert (D : Z.pos (digits2_pos p) <= 55).
           { apply digits2_pos_le; [lia|].
             change (2 ^ 55) with 36028797018963968. lia. }
           apply (round_against_100 p _ eq_refl); [lia|].
           intros D'. apply pow2_divide with 2; [lia|].
           exists (Z.pos m - 1407374883553280). lia.
        -- (* [64, 128) *)
           change (-46 - -49) with 3. change (2 ^ 3) with 8.
           change (-46 <? -46) with false. change (-46 =? -46) with true.
           cbv iota.
           split_sign p E; try lia.
           cbn [binary_normalize].
           assert (D8 : (8 | Z.pos p))
             by (exists (Z.pos m - 703687441776640); lia).
           assert (D : Z.pos (digits2_pos p) <= 56).
           { apply digits2_pos_le; [lia|].
             change (2 ^ 56) with 72057594037927936. lia. }
           destruct (Z.eq_dec (Z.pos (digits2_pos p)) 56) as [D56|N56].
           ++ rewrite (proj1 (proj2 (round_against_100 p _ eq_refl)) D56 D8).
              replace (Z.pos p / 8) with (Z.pos m - 703687441776640)
                by (apply Z.div_unique with (r := 0); lia).
              destruct (Z.ltb_spec (Z.pos m - 703687441776640) 7036874417766400),
                       (Z.ltb_spec (Z.pos m) 7740561859543040);
                (reflexivity || lia).
           ++ rewrite (proj1 (round_against_100 p _ eq_refl));
                [| lia | intros; apply pow2_divide with 3; [lia | exact D8]].
              symmetry. apply Z.ltb_lt.
              pose proof (digits2_pos_bounds p) as [_ Up].
              assert (2 ^ Z.pos (digits2_pos p) <= 2 ^ 55)
                by (apply Z.pow_le_mono_r; lia).
              change (2 ^ 55) with 36028797018963968 in *. lia.
        -- (* from 128 on *)
           replace (e <? -46) with false by (symmetry; apply Z.ltb_ge; lia).
           replace (e =? -46) with false by (symmetry; apply Z.eqb_neq; lia).
           replace (e - -49) with (4 + (e + 45)) by lia.
           rewrite Z.pow_add_r by lia. change (2 ^ 4) with 16.
           assert (Q : 1 <= 2 ^ (e + 45))
             by (change 1 with (2 ^ 0); apply Z.pow_le_mono_r; lia).
           set (q := 2 ^ (e + 45)) in *. clearbody q.
           assert (Low : 16 * Z.pos m <= Z.pos m * (16 * q)) by nia.
           split_sign p E; try lia.
           cbn [binary_normalize].
           assert (D8 : (8 | Z.pos p))
             by (exists (2 * Z.pos m * q - 703687441776640); lia).
           assert (D : 55 < Z.pos (digits2_pos p)).
           { apply digits2_pos_gt.
             change (2 ^ 55) with 36028797018963968. lia. }
           destruct (Z.eq_dec (Z.pos (digits2_pos p)) 56) as [D56|N56].
           ++ rewrite (proj1 (proj2 (round_against_100 p _ eq_refl)) D56 D8).
              apply Z.ltb_ge. apply Z.div_le_lower_bound; lia.
           ++ apply (round_against_100 p _ eq_refl). lia.
Qed.

(** In binary64 arithmetic [x - 10 < 100] holds exactly when [x < 110]. *)
Lemma sub_10_lt_100 (x : float) :
  ((x - 10) <? 100)%float = (x <? 110)%float.
Proof.
  rewrite !ltb_spec, sub_spec.
  replace (Prim2SF 10) with SF10 by (vm_compute; reflexivity).
  replace (Prim2SF 100) with SF100 by (vm_compute; reflexivity).
  replace (Prim2SF 110) with SF110 by (vm_compute; reflexivity).
  apply SF_sub_10_lt_100. apply Prim2SF_valid.
Qed.

(** C1, amended. With [T_width = 100] under role 22: the first trace-role
    move, at [x = 10], sets the cursor to 10 and records 0.0; each
    trace-role line of the first subtrace records [x - 10] for the abscissa
    [x] it is mapped to; the next trace-role move, at [x = 10], moves the
    cursor to -90 and records 100. The time of a line is below that 100
    exactly when its [x] is below 110; so when every line of the first
    subtrace is left of 110, every time recorded for the first subtrace is
    strictly below the 100 of the second one. *)
Theorem time_continuity (s s1 s2 s3 : state) (mid : list token)
        (y y' : float) :
  linestate s = 22 -> T_width s = Some 100%float -> t_start s = None ->
  GraphicsMap_map (transform s) (params s) = Return (10%float, y) ->
  step (Op "m") s = Return s1 ->
  run mid s1 = Return s2 -> ~ trace_move_before mid s1 ->
  linestate s2 = 22 ->
  GraphicsMap_map (transform s2) (params s2) = Return (10%float, y') ->
  step (Op "m") s2 = Return s3 ->
  let xs := line_abscissas mid s1 in
  let first := 0%float :: List.map (fun x => (x - 10)%float) xs in
  t_start s1 = Some 10%float
  /\ times s1 = times s ++ [0%float]
  /\ times s2 = times s ++ first
  /\ t_start s3 = Some (-90)%float
  /\ times s3 = times s ++ first ++ [100%float]
  /\ (forall x, In x xs ->
                ((x - 10) <? 100)%float = (x <? 110)%float)
  /\ (Forall (fun x => (x <? 110)%float = true) xs ->
      Forall (fun t => (t <? 100)%float = true) first).
Proof.
  intros L W T M H1 Hmid N L2 M2 H3. cbv zeta.
  destruct (step_m_trace s s1 L H1) as (x & yy & Mx & P).
  rewrite M in Mx. injection Mx as <- <-. rewrite T in P.
  destruct P as [T1 X1].
  assert (W2 : T_width s2 = Some 100%float).
  { apply (run_T_width _ _ _ _ Hmid). exact (step_T_width _ _ _ _ H1 W). }
  assert (T2 : t_start s2 = Some 10%float)
    by (rewrite (cursor_unchanged mid s1 s2 Hmid N); exact T1).
  destruct (step_m_trace s2 s3 L2 H3) as (x & yy & Mx & P).
  rewrite M2 in Mx. injection Mx as <- <-. rewrite T2 in P.
  destruct P as (w & Ww & T3 & X3).
  rewrite W2 in Ww. injection Ww as <-.
  pose proof (run_times_lines mid s1 s2 _ Hmid N T1) as E.
  assert (E2 : times s2
               = times s ++ 0%float
                   :: List.map (fun x => (x - 10)%float)
                               (line_abscissas mid s1))
    by (rewrite E, X1, <- app_assoc; reflexivity).
  split; [exact T1|]. split; [exact X1|]. split; [exact E2|].
  split; [exact T3|]. split.
  { rewrite X3, E2, <- app_assoc. reflexivity. }
  split.
  - intros x _. apply sub_10_lt_100.
  - intros A. constructor; [reflexivity|].
    apply Forall_map. apply Forall_impl with (2 := A).
    intros x Hx. rewrite sub_10_lt_100. exact Hx.
Qed.

(** ** The theorems at concrete scans *)

Ltac by_evaluation :=
  lazymatch goal with
  | |- (_ <= _)%Z => apply Z.leb_le; vm_compute; reflexivity
  | |- _ => vm_compute; reflexivity
  end.

(** The page with two subtraces, the first one ending at x = 60: its times
    0 and 50 are below the 100 of the second one, whose cursor is -90. *)
Lemma time_continuity_witness :
  let s3 := state_after (first_subtrace_start ++ Op "m" :: short_subtrace_rest
                           ++ [Op "m"]) in
  t_start s3 = Some (-90)%float
  /\ times s3 = [0; 50; 100]%float
  /\ Forall (fun t => (t <? 100)%float = true) [0; 50]%float.
Proof.
  cbv zeta.
  pose proof (time_continuity
                (state_after first_subtrace_start)
                (state_after (first_subtrace_start ++ [Op "m"]))
                (state_after (first_subtrace_start
                                ++ Op "m" :: short_subtrace_rest))
                (state_after (first_subtrace_start
                                ++ Op "m" :: short_subtrace_rest ++ [Op "m"]))
                short_subtrace_rest 50%float 80%float) as W.
  cbv zeta in W.
  replace (line_abscissas short_subtrace_rest
             (state_after (first_subtrace_start ++ [Op "m"])))
    with [60%float] in W by by_evaluation.
  destruct W as (_ & _ & _ & T & X & _ & O).
  - by_evaluation.
  - by_evaluation.
  - by_evaluation.
  - by_evaluation.
  - by_evaluation.
  - by_evaluation.
  - apply no_move_before. reflexivity.
  - by_evaluation.
  - by_evaluation.
  - by_evaluation.
  - split; [exact T|]. split; [rewrite X; by_evaluation|].
    apply O. repeat constructor.
Defined.

(** The border block after a first, empty top-level block. *)
Lemma border_block_stage_1_witness :
  exists s',
    run border_block (state_after [Op "q"; Op "Q"]) = Return s'
    /\ stage s' = 2 /\ linestate s' = 3
    /\ X_min s' = Some 0%float /\ X_max s' = Some 100%float
    /\ T_width s' = Some 100%float.
Proof.
  apply (border_block_stage_1 (state_after [Op "q"; Op "Q"]));
    by_evaluation.
Defined.

(** A restore under role 0, two restores from the border role, and a trace
    width declared under role 24. *)
Lemma role_advancement_witness :
  linestate (state_after [Op "q"; F 0.4; Op "w"; Op "Q"]) = 0
  /\ linestate (state_after [Op "q"; Op "Q"; Op "q"; F 0.4; Op "w";
                             Op "q"; Op "Q"; Op "q"; I 0; I 0; Op "m";
                             Op "Q"]) = 3
  /\ exists s'',
       step (Op "w") (state_after [Op "q"; Op "Q"; Op "q"; Op "Q"; Op "q";
                                   F 0.6; Op "w"; Op "q"; Op "Q"; F 0.4])
       = Return s''
       /\ linestate s'' = 22.
Proof.
  split; [|split].
  - apply (proj1 (role_advancement
                    (state_after [Op "q"; F 0.4; Op "w"])
                    (state_after [Op "q"; F 0.4; Op "w"; Op "Q"]) [])).
    by_evaluation.
  - apply (proj1 (proj2 (role_advancement
                    (state_after [Op "q"; Op "Q"; Op "q"; F 0.4; Op "w"])
                    (state_after [Op "q"; Op "Q"; Op "q"; F 0.4; Op "w";
                                  Op "q"; Op "Q"; Op "q"; I 0; I 0; Op "m";
                                  Op "Q"])
                    [Op "q"; Op "Q"; Op "q"; I 0; I 0; Op "m"; Op "Q"])));
      by_evaluation.
  - apply (proj2 (proj2 (role_advancement
                    (state_after [Op "q"; Op "Q"; Op "q"; Op "Q"; Op "q";
                                  F 0.6; Op "w"; Op "q"; Op "Q"; F 0.4])
                    init [])) 0.4%float 22).
    + by_evaluation.
    + cbn. right. right. right. left. by_evaluation.
Defined.

(** Two beat markers after the trace of three samples: the second ['m'] is
    met under role 24 and records 25 - 10. *)
Lemma beat_marker_sticky_witness :
  let s1 := state_after (three_samples ++ marker_blocks) in
  let s2 := state_after (three_samples ++ marker_blocks ++ [Op "m"]) in
  linestate s1 = 24 /\ beats s2 = [5; 15]%float.
Proof.
  cbv zeta.
  pose proof (beat_marker_sticky marker_blocks
                (state_after three_samples)
                (state_after (three_samples ++ marker_blocks))) as W.
  destruct W as (E & _ & _ & M).
  - by_evaluation.
  - reflexivity.
  - by_evaluation.
  - split; [rewrite E; by_evaluation|].
    destruct (M (state_after (three_samples ++ marker_blocks ++ [Op "m"])))
      as (x & y & t0 & Hm & Ht & Hb & _).
    + by_evaluation.
    + rewrite Hb.
      assert (Ex : Return (x, y) = Return (25, 0)%float)
        by (rewrite <- Hm; by_evaluation).
      assert (Et : Some t0 = Some 10%float)
        by (rewrite <- Ht; by_evaluation).
      injection Ex as -> ->. injection Et as ->. by_evaluation.
Defined.

(** A trace declared on a page without trace grid: the first ['m'] fails. *)
Lemma trace_origin_missing_witness :
  let pre := [Op "q"; Op "Q"; Op "q"; Op "Q"; Op "q"; F 0.4; Op "w";
              Op "q"; I 10; I 75] in
  subtrace (state_after pre) = 0
  /\ origins_trace (state_after pre) = []
  /\ _scan (pre ++ [Op "m"]) = Raise IndexError.
Proof.
  cbv zeta. split; [by_evaluation|]. split; [by_evaluation|].
  match goal with
  | |- _scan (?pre ++ _) = _ =>
      pose proof (trace_origin_missing pre [] "m" (state_after pre)) as W
  end.
  destruct W as (_ & _ & _ & W).
  - by_evaluation.
  - by_evaluation.
  - left. reflexivity.
  - left. by_evaluation.
  - apply (W 10%float 75%float).
    + by_evaluation.
    + by_evaluation.
    + unfold cursor_ready.
      replace (t_start _) with (@None float) by by_evaluation. reflexivity.
Defined.

(** Three samples and two beat markers: three times, three amplitudes. *)
Lemma times_trace_parallel_witness :
  let data := three_samples ++ two_markers ++ [Op "m"] in
  times (state_after data) = [0; 10; 20]%float
  /\ trace (state_after data) = [0; 10; -10]%float
  /\ List.length (fst (self_ecg (finalize (state_after data)))) = 3%nat
  /\ List.length (snd (self_ecg (finalize (state_after data)))) = 3%nat.
Proof.
  cbv zeta. split; [by_evaluation|]. split; [by_evaluation|].
  match goal with
  | |- context [finalize (state_after ?data)] =>
      pose proof (times_trace_parallel data (finalize (state_after data))) as W
  end.
  destruct W as (_ & E & _).
  - by_evaluation.
  - rewrite <- E. split; by_evaluation.
Defined.

(** The raw times 0, 10, 20 of the three samples, scaled. *)
Lemma finalize_scaling_witness :
  times (state_after three_samples) = [0; 10; 20]%float
  /\ exists out,
       _scan three_samples = Return out
       /\ nth_error (fst (self_ecg out)) 1
          = Some (10 * (25.4 / 72.0 / 25))%float
       /\ nth_error (fst (self_ecg out)) 2
          = Some (20 * (25.4 / 72.0 / 25))%float.
Proof.
  split; [by_evaluation|].
  destruct (finalize_scaling three_samples (state_after three_samples))
    as (out & S & T & _).
  - by_evaluation.
  - exists out. split; [exact S|]. rewrite !T. split; by_evaluation.
Defined.

(** A second ['Q'] after one balanced block. *)
Lemma restore_underflow_witness :
  graphicstate (state_after [Op "q"; Op "Q"]) = []
  /\ _scan ([Op "q"; Op "Q"] ++ Op "Q" :: [Op "q"]) = Raise IndexError.
Proof.
  split; [by_evaluation|].
  apply (restore_underflow [Op "q"; Op "Q"] [Op "q"]
           (state_after [Op "q"; Op "Q"])); by_evaluation.
Defined.

(** The operands [1 0.1 0 0 5 5] are refused; [1 0 0.0 -1 5 7.5] install the
    map [(1, -1, 5, 7.5)]. *)
Lemma concat_matrix_axis_aligned_witness :
  let pre := [Op "q"; I 1; I 0; F 0; I (-1); I 5; F 7.5] in
  _scan ([Op "q"; I 1; F 0.1; I 0; I 0; I 5; I 5] ++ Op "cm" :: [Op "Q"])
  = Raise AssertionError
  /\ step (Op "cm") (state_after pre)
     = Return (set_params []
                 (set_transform
                    (mkGraphicsMap (PInt 1) (PInt (-1)) (PInt 5) (PFloat 7.5))
                    (state_after pre))).
Proof.
  cbv zeta. split.
  - apply (concat_matrix_axis_aligned
             [Op "q"; I 1; F 0.1; I 0; I 0; I 5; I 5] [Op "Q"]
             (state_after [Op "q"; I 1; F 0.1; I 0; I 0; I 5; I 5])).
    + by_evaluation.
    + left. exists (PFloat 0.1). split; by_evaluation.
  - apply (proj2 (concat_matrix_axis_aligned
                    [Op "q"; I 1; I 0; F 0; I (-1); I 5; F 7.5] []
                    (state_after [Op "q"; I 1; I 0; F 0; I (-1); I 5; F 7.5])
                    ltac:(by_evaluation))
             (PInt 1) (PInt 0) (PFloat 0) (PInt (-1)) (PInt 5) (PFloat 7.5));
      by_evaluation.
Defined.

(** A beat marker on a page without trace fails; after the trace of three
    samples the second marker is recorded. *)
Lemma beat_marker_cursor_witness :
  fails (_scan ([Op "q"; Op "Q"; Op "q"; Op "Q"; Op "q"; F 0.6; Op "w";
                 Op "q"; I 15; I 0] ++ Op "m" :: [Op "S"; Op "Q"]))
  /\ exists t0,
       t_start (state_after (three_samples ++ two_markers)) = Some t0
       /\ step (Op "m") (state_after (three_samples ++ two_markers))
          = Return (set_params []
                      (set_beats
                         (beats (state_after (three_samples ++ two_markers))
                            ++ [(25 - t0)%float])
                         (state_after (three_samples ++ two_markers)))).
Proof.
  split.
  - match goal with
    | |- fails (_scan (?pre ++ _ :: ?post)) =>
        apply (proj1 (beat_marker_cursor pre post (state_after pre)
                        ltac:(by_evaluation) ltac:(by_evaluation)))
    end.
    apply no_move_before. reflexivity.
  - pose proof (proj2 (beat_marker_cursor (three_samples ++ two_markers) []
                         (state_after (three_samples ++ two_markers))
                         ltac:(by_evaluation) ltac:(by_evaluation))) as W.
    destruct W as (_ & _ & W).
    + exists (firstn 20 three_samples),
             (skipn 21 (three_samples ++ two_markers)),
             (state_after (firstn 20 three_samples)).
      split; [reflexivity|]. split; by_evaluation.
    + apply (W 25%float 0%float); by_evaluation.
Defined.

(** ** Nesting of saves and restores *)

Lemma py_pop_inv {A : Type} (l r : list A) (a : A) :
  py_pop l = Return (a, r) -> l = r ++ [a].
Proof.
  unfold py_pop. destruct (rev l) as [|x t] eqn:E; [discriminate|].
  intros H. injection H as -> <-.
  rewrite <- (rev_involutive l), E. reflexivity.
Qed.

(** Only ['q'] and ['Q'] touch the stack and the depth. *)
Lemma step_stack_other (tok : token) (s s' : state) :
  is_op "q" tok = false -> is_op "Q" tok = false ->
  step tok s = Return s' ->
  graphicstate s' = graphicstate s /\ level s' = level s.
Proof.
  intros Hq HQ H. destruct tok as [v|d]; cbn in H.
  - inv_res H. split; reflexivity.
  - destruct (operator_view d s); try discriminate;
      unfold_operator; inv_res H; split; reflexivity.
Qed.

Lemma step_q_state (s : state) :
  step (Op "q") s =
    Return (set_params []
      (set_level (level s + 1)
        (set_stage (if level s =? 0 then stage s + 1 else stage s)
          (set_transform GraphicsMap_default
            (set_graphicstate (graphicstate s ++ [transform s]) s))))).
Proof. reflexivity. Qed.

Lemma length_zero_nil {A : Type} (l : list A) : List.length l = 0%nat -> l = [].
Proof. destruct l; [reflexivity | discriminate]. Qed.

Lemma snoc_of_length {A : Type} (l : list A) (k : nat) :
  List.length l = S k -> exists r a, l = r ++ [a] /\ List.length r = k.
Proof.
  intros L. destruct (rev l) as [|a r] eqn:E.
  - apply (f_equal (@List.length A)) in E. rewrite length_rev, L in E.
    discriminate.
  - exists (rev r), a. rewrite <- (rev_involutive l), E. cbn. split.
    + reflexivity.
    + rewrite length_rev.
      apply (f_equal (@List.length A)) in E. rewrite length_rev, L in E.
      cbn in E. lia.
Qed.

(** Tokens whose restores never close more than was opened leave the part
    of the stack below their entry depth as it was. *)
Lemma run_nesting (toks : list token) :
  forall (k n : nat) (s s' : state) (base ext : list GraphicsMap),
    nesting k toks = Some n ->
    graphicstate s = base ++ ext -> List.length ext = k ->
    run toks s = Return s' ->
    exists ext',
      graphicstate s' = base ++ ext' /\ List.length ext' = n
      /\ level s' = level s + Z.of_nat n - Z.of_nat k.
Proof.
  induction toks as [|tok toks IH]; intros k n s s' base ext N G L H.
  - cbn in N, H. injection N as <-. injection H as <-.
    exists ext. repeat split; [exact G | exact L | lia].
  - rewrite run_cons in H. apply bind_Return in H.
    destruct H as (s1 & H1 & H). cbn [nesting] in N.
    destruct (is_op "q" tok) eqn:Eq.
    + destruct tok as [v|d]; [discriminate|].
      cbn in Eq. apply String.eqb_eq in Eq. subst d.
      rewrite step_q_state in H1. injection H1 as <-.
      pose proof (fun b e G0 L0 => IH (S k) n _ s' b e N G0 L0 H) as IH'.
      destruct (IH' base (ext ++ [transform s])) as (e' & A & B & C).
      * cbn. rewrite G, app_assoc. reflexivity.
      * rewrite length_app. cbn. lia.
      * exists e'. repeat split; [exact A | exact B |].
        rewrite C. cbn. lia.
    + destruct (is_op "Q" tok) eqn:EQ.
      * destruct tok as [v|d]; [discriminate|].
        cbn in EQ. apply String.eqb_eq in EQ. subst d.
        destruct k as [|k]; [discriminate|].
        destruct (snoc_of_length ext k L) as (r & a & -> & Lr).
        rewrite (step_Q_snoc s (base ++ r) a) in H1
          by (rewrite G, app_assoc; reflexivity).
        injection H1 as <-.
        pose proof (fun b e G0 L0 => IH k n _ s' b e N G0 L0 H) as IH'.
        destruct (IH' base r) as (e' & A & B & C);
          [reflexivity | exact Lr |].
        exists e'. repeat split; [exact A | exact B |].
        rewrite C. cbn. lia.
      * destruct (step_stack_other _ _ _ Eq EQ H1) as [G1 L1].
        destruct (IH k n s1 s' base ext N) as (e' & A & B & C);
          [rewrite G1; exact G | exact L | exact H |].
        exists e'. repeat split; [exact A | exact B |].
        rewrite C, L1. reflexivity.
Qed.

(** X1. A block [q ... Q] whose inner saves and restores are well nested,
    when it is executed without error, leaves the transform, the stack and
    the nesting depth exactly as they were before its ['q']: whatever
    ['cm'] the block installs is undone by its ['Q']. *)
Theorem balanced_block_restores (inner : list token) (s s' : state) :
  nesting 0 inner = Some 0%nat ->
  run (Op "q" :: inner ++ [Op "Q"]) s = Return s' ->
  transform s' = transform s
  /\ graphicstate s' = graphicstate s
  /\ level s' = level s.
Proof.
  intros N H. rewrite run_cons, step_q_state in H. cbn [bind] in H.
  rewrite run_app in H. apply bind_Return in H.
  destruct H as (s2 & H2 & H).
  pose proof (fun b e G0 L0 => run_nesting inner 0 0 _ s2 b e N G0 L0 H2)
    as R.
  destruct (R (graphicstate s ++ [transform s]) []) as (e' & A & B & C);
    [cbn; rewrite app_nil_r; reflexivity | reflexivity |].
  apply length_zero_nil in B. subst e'. rewrite app_nil_r in A.
  rewrite run_cons, (step_Q_snoc s2 _ _ A) in H. cbn in H.
  injection H as <-. cbn in C |- *. repeat split. lia.
Qed.

Lemma step_level_stack (tok : token) (s s' : state) :
  step tok s = Return s' ->
  level s = Z.of_nat (List.length (graphicstate s)) ->
  level s' = Z.of_nat (List.length (graphicstate s')).
Proof.
  intros H L. destruct (is_op "q" tok) eqn:Eq.
  - destruct tok as [v|d]; [discriminate|].
    cbn in Eq. apply String.eqb_eq in Eq. subst d.
    rewrite step_q_state in H. injection H as <-. cbn.
    rewrite length_app. cbn. lia.
  - destruct (is_op "Q" tok) eqn:EQ.
    + destruct tok as [v|d]; [discriminate|].
      cbn in EQ. apply String.eqb_eq in EQ. subst d.
      cbn in H. unfold restore in H.
      destruct (py_pop (graphicstate s)) as [[t gs]|e] eqn:P;
        [|discriminate].
      apply py_pop_inv in P. cbn in H. injection H as <-. cbn.
      rewrite P, length_app in L. cbn in L. lia.
    + destruct (step_stack_other _ _ _ Eq EQ H) as [-> ->]. exact L.
Qed.

Lemma run_level_stack (toks : list token) (s s' : state) :
  run toks s = Return s' ->
  level s = Z.of_nat (List.length (graphicstate s)) ->
  level s' = Z.of_nat (List.length (graphicstate s')).
Proof.
  revert s. induction toks as [|tok toks IH]; intros s H L.
  - cbn in H. inv_res H. exact L.
  - rewrite run_cons in H. apply bind_Return in H.
    destruct H as (s1 & H1 & H). apply (IH s1 H).
    exact (step_level_stack _ _ _ H1 L).
Qed.

(** X2. In every state that a scan reaches, [level] is the size of the
    stack, so it is never negative; a ['Q'] met there raises [IndexError]
    exactly when [level] is 0 and succeeds otherwise. *)
Theorem depth_is_stack_size (pre : list token) (s : state) :
  run pre init = Return s ->
  level s = Z.of_nat (List.length (graphicstate s))
  /\ 0 <= level s
  /\ (level s = 0 <-> step (Op "Q") s = Raise IndexError)
  /\ (0 < level s -> succeeds (step (Op "Q") s)).
Proof.
  intros H.
  assert (L : level s = Z.of_nat (List.length (graphicstate s)))
    by (apply (run_level_stack pre init s H); reflexivity).
  split; [exact L|]. split; [lia|]. split; [split|].
  - intros Z0. rewrite Z0 in L.
    assert (G : graphicstate s = []) by (apply length_zero_nil; lia).
    cbn. unfold restore. rewrite G. reflexivity.
  - intros F. destruct (graphicstate s) as [|g gs] eqn:G; [cbn in L; exact L|].
    exfalso. destruct (snoc_of_length (g :: gs) (List.length gs) eq_refl)
      as (r & a & E & _).
    rewrite (step_Q_snoc s r a) in F by (rewrite G; exact E). discriminate.
  - intros P. destruct (graphicstate s) as [|g gs] eqn:G; [cbn in L; lia|].
    destruct (snoc_of_length (g :: gs) (List.length gs) eq_refl)
      as (r & a & E & _).
    rewrite (step_Q_snoc s r a) by (rewrite G; exact E).
    eexists. reflexivity.
Qed.

(** ** Stage, role and subtrace counters *)

Lemma step_counters (tok : token) (s s' : state) :
  step tok s = Return s' ->
  counters_ok s ->
  counters_ok s' /\ stage s <= stage s' /\ subtrace s <= subtrace s'.
Proof.
  unfold counters_ok. intros H C. destruct tok as [v|d]; cbn in H.
  - inv_res H. cbn. lia.
  - destruct (operator_view d s); unfold_operator; inv_res H;
      cbn - [Z.eqb]; prop_tests; decide_tests; lia.
Qed.

Lemma run_counters (toks : list token) (s s' : state) :
  run toks s = Return s' ->
  counters_ok s ->
  counters_ok s' /\ stage s <= stage s' /\ subtrace s <= subtrace s'.
Proof.
  revert s. induction toks as [|tok toks IH]; intros s H C.
  - cbn in H. inv_res H. split; [exact C | lia].
  - rewrite run_cons in H. apply bind_Return in H.
    destruct H as (s1 & H1 & H).
    destruct (step_counters _ _ _ H1 C) as (C1 & A & B).
    destruct (IH s1 H C1) as (C2 & A2 & B2).
    split; [exact C2 | lia].
Qed.

(** X3. In every state that a scan reaches: [stage] and [linestate] are
    not negative, a role is set only from stage 2 on, [subtrace] is at
    least -1 and a subtrace is counted only from stage 3 on; and neither
    [stage] nor [subtrace] ever decreases as the scan goes on. *)
Theorem counters_invariant (pre post : list token) (s s' : state) :
  run pre init = Return s ->
  run post s = Return s' ->
  0 <= stage s /\ 0 <= linestate s
  /\ (linestate s <> 0 -> 2 <= stage s)
  /\ -1 <= subtrace s
  /\ (0 <= subtrace s -> 3 <= stage s)
  /\ stage s <= stage s' /\ subtrace s <= subtrace s'.
Proof.
  intros H1 H2.
  assert (C0 : counters_ok init) by (unfold counters_ok; cbn; lia).
  destruct (run_counters pre init s H1 C0) as (C & _).
  destruct (run_counters post s s' H2 C) as (_ & A & B).
  unfold counters_ok in C. lia.
Qed.

(** ** Operand counts and unknown operators *)

(** X4. ['cm'] asks for six operands, ['w'] for one, ['m'] and ['l'] for
    two: met with another number of pending operands, under any role, the
    operator raises [AssertionError] and the scan returns nothing. *)
Theorem operand_count_checked (pre post : list token) (d : string)
        (n : nat) (s : state) :
  run pre init = Return s ->
  arity d = Some n ->
  List.length (params s) <> n ->
  step (Op d) s = Raise AssertionError
  /\ _scan (pre ++ Op d :: post) = Raise AssertionError.
Proof.
  intros Hpre A L.
  assert (F : step (Op d) s = Raise AssertionError).
  { unfold arity in A.
    repeat match type of A with
           | (if (d =? ?c)%string then _ else _) = _ =>
               destruct (String.eqb_spec d c);
               [subst d; injection A as <-; apply Nat.eqb_neq in L;
                cbn; unfold_operator; rewrite L; reflexivity|]
           end.
    discriminate. }
  split; [exact F|].
  apply scan_Raise. exact (run_Raise_at pre post _ init s _ Hpre F).
Qed.

Lemma run_nums (vs : list num) (s : state) :
  run (List.map Num vs) s = Return (set_params (params s ++ vs) s).
Proof.
  revert s. induction vs as [|v vs IH]; intros s; cbn.
  - rewrite app_nil_r. destruct s; reflexivity.
  - rewrite IH. cbn. rewrite <- app_assoc. reflexivity.
Qed.

Lemma step_unknown (d : string) (s : state) :
  ~ In d known_operators ->
  step (Op d) s = Return (set_params [] s).
Proof.
  intros N. cbn. unfold operator.
  repeat match goal with
         | |- context [(d =? ?c)%string] =>
             destruct (String.eqb_spec d c);
             [exfalso; apply N; subst d; cbn; tauto|]
         end.
  reflexivity.
Qed.

Lemma step_Op_params (d : string) (s s' : state) :
  step (Op d) s = Return s' -> params s' = [].
Proof.
  cbn. intros H. apply bind_Return in H. destruct H as (s1 & _ & H).
  injection H as <-. reflexivity.
Qed.

(** X5. An operator word without a branch of its own is not an error: it
    only discards the pending operands. So a group of numbers followed by
    such a word, put at the start of the stream or after any operator, can
    be taken out without changing what the scan returns or raises. *)
Theorem decoration_removable (pre post : list token) (vs : list num)
        (d : string) :
  ~ In d known_operators ->
  pre = [] \/ (exists pre' d', pre = pre' ++ [Op d']) ->
  (forall s, step (Op d) s = Return (set_params [] s))
  /\ _scan (pre ++ (List.map Num vs ++ [Op d]) ++ post) = _scan (pre ++ post).
Proof.
  intros N P. split; [intros s; exact (step_unknown d s N)|].
  unfold _scan. f_equal. rewrite !run_app.
  destruct (run pre init) as [s|e] eqn:R; [cbn [bind] | reflexivity].
  assert (E : params s = []).
  { destruct P as [-> | (pre' & d' & ->)].
    - cbn in R. injection R as <-. reflexivity.
    - rewrite run_app in R. apply bind_Return in R.
      destruct R as (s0 & _ & R). cbn [run] in R.
      apply bind_Return in R. destruct R as (s1 & R & R1).
      injection R1 as <-. exact (step_Op_params _ _ _ R). }
  rewrite !run_app, run_nums. cbn [bind run].
  rewrite (step_unknown d _ N). cbn [bind]. f_equal.
  destruct s; cbn in E |- *. rewrite E. reflexivity.
Qed.

Lemma int_never_width (z : Z) (c : float) :
  In c [0.4; 0.3; 1.5; 0.6]%float -> py_eq (PInt z) (PFloat c) = false.
Proof.
  intros Hc. cbn [py_eq]. unfold int_eqb_float.
  cbn in Hc.
  repeat (destruct Hc as [<- | Hc];
          [match goal with
           | |- context [Prim2SF ?c] =>
               let v := eval vm_compute in (Prim2SF c) in
               replace (Prim2SF c) with v by (vm_compute; reflexivity)
           end;
           lazy beta iota zeta delta [Z.leb Z.compare Z.opp];
           apply Z.eqb_neq; rewrite Z.shiftl_mul_pow2 by lia;
           match goal with
           | |- context [2 ^ ?k] =>
               let p := eval vm_compute in (2 ^ k) in
               change (2 ^ k) with p
           end; lia|]).
  contradiction.
Qed.

(** X6. A ['w'] with one operand is never an error. It leaves the role and
    the subtrace counter as they were when the stage is neither 2 nor 3,
    and also when the operand is an [int], which equals none of the widths
    0.4, 0.3, 1.5 and 0.6. *)
Theorem width_unrecognized (s : state) (v : num) :
  params s = [v] ->
  succeeds (step (Op "w") s)
  /\ ((stage s <> 2 /\ stage s <> 3) \/ (exists z, v = PInt z) ->
      step (Op "w") s = Return (set_params [] s)).
Proof.
  intros Hp. split.
  - cbn. unfold line_width. rewrite Hp. cbn.
    repeat match goal with
           | |- context [if ?b then _ else _] => destruct b
           end; eexists; reflexivity.
  - intros [[N2 N3] | (z & ->)]; cbn; unfold line_width; rewrite Hp;
      cbn - [py_eq].
    + apply Z.eqb_neq in N2, N3. rewrite N2, N3. reflexivity.
    + rewrite !int_never_width by (cbn; tauto).
      destruct (stage s =? 2), (stage s =? 3); reflexivity.
Qed.

(** ** The samples *)

Lemma py_getitem_nth {A : Type} (l : list A) (i : Z) (a : A) :
  0 <= i -> py_getitem l i = Return a -> nth_error l (Z.to_nat i) = Some a.
Proof.
  intros P. unfold py_getitem.
  destruct (Z.ltb_spec i 0) as [N|_]; [lia|].
  destruct (_ || _); [discriminate|].
  destruct (nth_error l (Z.to_nat i)); congruence.
Qed.

(** X7. A ['m'] or an ['l'] that succeeds under role 22 records the
    amplitude [y - origins_trace[subtrace]] of the mapped point [(x, y)],
    the origin being the entry number [subtrace] of the list when
    [subtrace] is not negative; an ['l'] records the time [x - t_start] and
    leaves the cursor where it was. *)
Theorem trace_sample_values (d : string) (s s' : state) :
  linestate s = 22 ->
  d = "m"%string \/ d = "l"%string ->
  step (Op d) s = Return s' ->
  exists x y o,
    GraphicsMap_map (transform s) (params s) = Return (x, y)
    /\ py_getitem (origins_trace s) (subtrace s) = Return o
    /\ (0 <= subtrace s ->
        nth_error (origins_trace s) (Z.to_nat (subtrace s)) = Some o)
    /\ trace s' = trace s ++ [(y - o)%float]
    /\ (d = "l"%string ->
        exists t0, t_start s = Some t0
                   /\ times s' = times s ++ [(x - t0)%float]
                   /\ t_start s' = Some t0).
Proof.
  intros L Hd H.
  destruct Hd as [-> | ->]; cbn in H; unfold_operator; rewrite L in H;
    cbn in H; inv_res H;
    match goal with
    | M : GraphicsMap_map _ _ = Return (?x, ?y),
      G : py_getitem _ _ = Return ?o |- _ =>
        cbn in G; exists x, y, o;
        split; [reflexivity|]; split; [first [exact G | reflexivity]|];
        split; [intros P; exact (py_getitem_nth _ _ _ P G)|];
        split; [reflexivity|]
    end; intros D; try discriminate D.
  match goal with
  | T : py_sub _ (t_start s) = Return _ |- _ =>
      destruct (t_start s) as [t0|] eqn:Ts; [|discriminate T];
      cbn in T; injection T as <-; exists t0;
      split; [reflexivity|]; split; [reflexivity | exact Ts]
  end.
Qed.

Lemma prefix_of_refl {A : Type} (l : list A) : prefix_of l l.
Proof. exists []. symmetry. apply app_nil_r. Qed.

Lemma prefix_of_snoc {A : Type} (l : list A) (a : A) : prefix_of l (l ++ [a]).
Proof. exists [a]. reflexivity. Qed.

Lemma prefix_of_trans {A : Type} (l1 l2 l3 : list A) :
  prefix_of l1 l2 -> prefix_of l2 l3 -> prefix_of l1 l3.
Proof.
  intros (a & ->) (b & ->). exists (a ++ b). rewrite app_assoc. reflexivity.
Qed.

Lemma step_append_only (tok : token) (s s' : state) :
  step tok s = Return s' ->
  prefix_of (times s) (times s') /\ prefix_of (trace s) (trace s')
  /\ prefix_of (beats s) (beats s')
  /\ prefix_of (origins_trace s) (origins_trace s')
  /\ prefix_of (origins_beats s) (origins_beats s').
Proof.
  intros H. destruct tok as [v|d]; cbn in H.
  - inv_res H. cbn. repeat split; apply prefix_of_refl.
  - destruct (operator_view d s); unfold_operator; inv_res H; cbn;
      repeat split;
      first [apply prefix_of_refl | apply prefix_of_snoc].
Qed.

(** X8. The five lists that the scan fills are only ever appended to: what
    [times], [trace], [beats], [origins_trace] and [origins_beats] hold at
    some point of a scan is an initial part of what they hold at any later
    point, so a recorded sample or origin is never changed or dropped. *)
Theorem accumulators_append_only (toks : list token) (s s' : state) :
  run toks s = Return s' ->
  prefix_of (times s) (times s') /\ prefix_of (trace s) (trace s')
  /\ prefix_of (beats s) (beats s')
  /\ prefix_of (origins_trace s) (origins_trace s')
  /\ prefix_of (origins_beats s) (origins_beats s').
Proof.
  revert s. induction toks as [|tok toks IH]; intros s H.
  - cbn in H. inv_res H. repeat split; apply prefix_of_refl.
  - rewrite run_cons in H. apply bind_Return in H.
    destruct H as (s1 & H1 & H).
    destruct (step_append_only _ _ _ H1) as (A1 & A2 & A3 & A4 & A5).
    destruct (IH s1 H) as (B1 & B2 & B3 & B4 & B5).
    repeat split; eapply prefix_of_trans; eassumption.
Qed.

(** ** The border *)

Lemma step_border (tok : token) (s s' : state) :
  step tok s = Return s' ->
  (T_width s = None <-> X_max s = None) ->
  (T_width s' = None <-> X_max s' = None)
  /\ (forall w, T_width s = Some w ->
                T_width s' = Some w /\ X_max s' = X_max s).
Proof.
  intros H I. destruct tok as [v|d]; cbn in H.
  - inv_res H. cbn. split; [exact I | auto].
  - destruct (operator_view d s); unfold_operator; inv_res H; cbn;
      (split; [first [exact I | intuition congruence]
              | intros w W; split; congruence]).
Qed.

(** X9. The border is measured once. In every state that a scan reaches,
    [T_width] and [X_max] are set together; and once [T_width] is set, the
    rest of the scan changes neither of them, whatever border lines
    follow. *)
Theorem border_measured_once (pre post : list token) (s s' : state) :
  run pre init = Return s ->
  run post s = Return s' ->
  (T_width s = None <-> X_max s = None)
  /\ (forall w, T_width s = Some w ->
                T_width s' = Some w /\ X_max s' = X_max s).
Proof.
  intros H1 H2.
  assert (G : forall toks a b,
             run toks a = Return b ->
             (T_width a = None <-> X_max a = None) ->
             (T_width b = None <-> X_max b = None)
             /\ (forall w, T_width a = Some w ->
                           T_width b = Some w /\ X_max b = X_max a)).
  { induction toks as [|tok toks IH]; intros a b H I.
    - cbn in H. inv_res H. split; [exact I | auto].
    - rewrite run_cons in H. apply bind_Return in H.
      destruct H as (a1 & Ha & H).
      destruct (step_border _ _ _ Ha I) as (I1 & K1).
      destruct (IH a1 b H I1) as (I2 & K2).
      split; [exact I2|]. intros w W.
      destruct (K1 w W) as (W1 & X1). destruct (K2 w W1) as (W2 & X2).
      split; [exact W2 | congruence]. }
  assert (I0 : T_width init = None <-> X_max init = None)
    by (cbn; tauto).
  destruct (G pre init s H1 I0) as (I & _).
  destruct (G post s s' H2 I) as (_ & K).
  split; [exact I | exact K].
Qed.

(** ** The start of the time axis *)

Lemma step_cursor_ok (tok : token) (s s' : state) :
  step tok s = Return s' -> cursor_ok s -> cursor_ok s'.
Proof.
  unfold cursor_ok. intros H C. destruct tok as [v|d]; cbn in H.
  - inv_res H. exact C.
  - destruct (operator_view d s); unfold_operator; inv_res H; cbn;
      try exact C;
      destruct C as [(T & X & B) | (T & rest & X)];
      repeat match goal with
             | P : py_sub _ (t_start s) = Return _ |- _ =>
                 rewrite T in P; discriminate P
             | P : t_start s = _ |- _ => progress (rewrite P in * )
             end;
      try congruence;
      right; (split; [congruence|]); rewrite X; cbn; eexists; reflexivity.
Qed.

Lemma run_cursor_ok (toks : list token) (s s' : state) :
  run toks s = Return s' -> cursor_ok s -> cursor_ok s'.
Proof.
  revert s. induction toks as [|tok toks IH]; intros s H C.
  - cbn in H. inv_res H. exact C.
  - rewrite run_cons in H. apply bind_Return in H.
    destruct H as (s1 & H1 & H). apply (IH s1 H).
    exact (step_cursor_ok _ _ _ H1 C).
Qed.

(** X10. In every state that a scan reaches, the cursor is unset exactly
    when no time has been recorded; beat times are recorded only after a
    trace sample; and the first recorded time is 0.0, before and after the
    scaling of the result. *)
Theorem time_axis_starts_at_zero (data : list token) (s : state) :
  run data init = Return s ->
  (t_start s = None <-> times s = [])
  /\ (beats s <> [] -> times s <> [])
  /\ (forall t, hd_error (times s) = Some t -> t = 0%float)
  /\ (forall t, hd_error (fst (self_ecg (finalize s))) = Some t ->
                t = 0%float).
Proof.
  intros H.
  assert (C : cursor_ok s).
  { apply (run_cursor_ok data init s H). left. repeat split. }
  unfold finalize. cbn [self_ecg fst].
  destruct C as [(T & X & B) | (T & rest & X)].
  - rewrite T, X, B. cbn. repeat split; intros; congruence.
  - rewrite X. cbn. split; [split; congruence|]. split; [congruence|].
    split; intros t E; injection E as <-; reflexivity.
Qed.

(** ** The exceptions of a step *)

Lemma py_getitem_ok {A : Type} (l : list A) (i : Z) :
  0 <= i < Z.of_nat (List.length l) -> succeeds (py_getitem l i).
Proof.
  intros R. unfold py_getitem.
  destruct (Z.ltb_spec i 0) as [N|_]; [lia|].
  destruct (Z.ltb_spec i 0) as [N|_]; [lia|].
  destruct (Z.leb_spec (Z.of_nat (List.length l)) i) as [N|_]; [lia|].
  cbn. destruct (nth_error l (Z.to_nat i)) as [a|] eqn:E.
  - exists a. reflexivity.
  - apply nth_error_None in E. lia.
Qed.

Lemma py_getitem_in_range {A : Type} (l : list A) (i : Z) (e : exn) :
  0 <= i < Z.of_nat (List.length l) -> py_getitem l i <> Raise e.
Proof.
  intros R. destruct (py_getitem_ok l i R) as (a & ->). discriminate.
Qed.

(** With two operands [map] can only fail on a conversion. *)
Lemma GraphicsMap_map_two (g : GraphicsMap) (p : list num) (e : exn) :
  List.length p = 2%nat ->
  GraphicsMap_map g p = Raise e -> e = OverflowError.
Proof.
  intros L. unfold GraphicsMap_map. intros H.
  repeat match type of H with
         | bind ?c _ = Raise _ =>
             let E := fresh "E" in
             destruct c eqn:E; cbn [bind] in H;
             [| injection H as <-;
                first [exact (to_float_Raise _ _ E)
                      | exfalso; revert E; apply py_getitem_in_range;
                        rewrite L; cbn; lia]]
         end.
  discriminate.
Qed.

Lemma py_sub_Raise (a : float) (b : option float) (e : exn) :
  py_sub a b = Raise e -> e = TypeError /\ b = None.
Proof.
  destruct b; cbn; [discriminate|]. intros H. injection H as <-. auto.
Qed.

Lemma assert_Raise (b : bool) (e : exn) :
  assert b = Raise e -> e = AssertionError /\ b = false.
Proof.
  destruct b; cbn; [discriminate|]. intros H. injection H as <-. auto.
Qed.

Lemma py_pop_Raise {A : Type} (l : list A) (e : exn) :
  py_pop l = Raise e -> e = IndexError /\ l = [].
Proof.
  unfold py_pop. destruct (rev l) eqn:E; [|discriminate].
  intros H. injection H as <-. split; [reflexivity|].
  rewrite <- (rev_involutive l), E. reflexivity.
Qed.

(** Inversion of a failed computation. *)
Ltac inv_raise H :=
  lazymatch type of H with
  | Return _ = Raise _ => discriminate H
  | Raise _ = Raise _ => injection H as H; try subst
  | bind ?c _ = Raise _ =>
      let E := fresh "E" in
      destruct c eqn:E; cbn [bind] in H; [inv_raise H | inv_raise E; inv_raise H]
  | (if ?b then _ else _) = Raise _ =>
      let E := fresh "E" in destruct b eqn:E; inv_raise H
  | (match ?x with _ => _ end) = Raise _ =>
      let E := fresh "E" in destruct x eqn:E; inv_raise H
  | _ => idtac
  end.

Ltac name_failure :=
  repeat match goal with
         | E : assert _ = Raise _ |- _ =>
             apply assert_Raise in E; destruct E as [-> E]
         | E : assert _ = Return _ |- _ => apply assert_Return in E
         | E : py_pop _ = Raise _ |- _ =>
             apply py_pop_Raise in E; destruct E as [-> E]
         | E : py_sub _ _ = Raise _ |- _ =>
             apply py_sub_Raise in E; destruct E as [-> E]
         | E : _ && _ = true |- _ =>
             apply andb_true_iff in E; destruct E as [? ?]
         | E : (_ =? _)%nat = true |- _ => apply Nat.eqb_eq in E
         | E : (_ =? _)%nat = false |- _ => apply Nat.eqb_neq in E
         end.

Ltac close_case :=
  repeat split; try reflexivity; try assumption; try congruence; try lia;
  try (left; reflexivity); try (right; reflexivity).

Ltac pick_case :=
  first [ solve [close_case]
        | left; solve [close_case]
        | right; left; solve [close_case]
        | right; right; left; solve [close_case]
        | right; right; right; solve [close_case]
        | right; solve [close_case] ].

Ltac explain_failure :=
  prop_tests;
  try match goal with
      | E : match _ with _ => _ end = Return _ |- _ => inv_res E
      end;
  match goal with
  | E : py_getitem (params ?s) _ = Raise _,
    L : List.length (params ?s) = _ |- _ =>
      exfalso; revert E; apply py_getitem_in_range; rewrite L; cbn; lia
  | E : GraphicsMap_map _ (params ?s) = Raise _,
    L : List.length (params ?s) = 2%nat |- _ =>
      apply (GraphicsMap_map_two _ _ _ L) in E; subst; pick_case
  | E : py_getitem (origins_trace _) _ = Raise ?e |- _ =>
      cbn in E; pose proof (py_getitem_Raise _ _ _ E); subst e; pick_case
  | E : _ && _ = false |- _ =>
      apply andb_false_iff in E; destruct E as [E|E];
      [apply Nat.eqb_neq in E; left; eexists; split; [reflexivity | exact E]
      | right; split; [reflexivity | exact E]]
  | E : List.length (params _) <> _ |- _ =>
      left; eexists; split; [reflexivity | exact E]
  | _ => pick_case
  end.

(** X11. What each exception of a step means. Numbers, ['q'], ['BT'],
    ['ET'] and unknown words never fail. [AssertionError] comes from a
    wrong operand count or from a ['cm'] whose second and third operands
    are not both 0; [IndexError] from a ['Q'] on the empty stack or from a
    missing origin under role 22; [TypeError] from arithmetic on an unset
    cursor, width or left border; [OverflowError] from an operand or a
    matrix entry of ['m'] or ['l'] too large for a [float]. *)
Theorem step_exceptions (tok : token) (s : state) (e : exn) :
  step tok s = Raise e ->
  exists d,
    tok = Op d
    /\ match e with
       | AssertionError =>
           (exists n, arity d = Some n /\ List.length (params s) <> n)
           \/ (d = "cm"%string
               /\ py_list_eq (py_slice (params s) 1 3) [PInt 0; PInt 0]
                  = false)
       | IndexError =>
           (d = "Q"%string /\ graphicstate s = [])
           \/ ((d = "m"%string \/ d = "l"%string) /\ linestate s = 22
               /\ py_getitem (origins_trace s) (subtrace s)
                  = Raise IndexError)
       | TypeError =>
           (d = "m"%string /\ linestate s = 22
            /\ t_start s <> None /\ T_width s = None)
           \/ (d = "m"%string /\ 23 <= linestate s /\ t_start s = None)
           \/ (d = "l"%string /\ linestate s = 1
               /\ T_width s = None /\ X_min s = None)
           \/ (d = "l"%string /\ linestate s = 22 /\ t_start s = None)
       | OverflowError =>
           (d = "m"%string \/ d = "l"%string)
           /\ List.length (params s) = 2%nat
       end.
Proof.
  intros H. destruct tok as [v|d]; [discriminate|].
  exists d. split; [reflexivity|]. cbn in H.
  destruct (operator_view d s) as [| | | | | | | |d N1 N2 N3 N4];
    unfold_operator; inv_raise H; name_failure.
  all: explain_failure.
Qed.

(** ** Variables that are written and never read *)

Ltac reduce_branch :=
  cbn - [GraphicsMap_map py_getitem py_pop py_sub py_eq py_list_eq py_slice
         Z.eqb Z.leb Nat.eqb List.length app Z.add Z.sub].

Lemma step_scrub (tok : token) (s : state) :
  result_map scrub (step tok (scrub s)) = result_map scrub (step tok s).
Proof.
  destruct s as [st lv it ps tr gs ls xmin xmax tw ts sub ot ob tm tc bt].
  destruct tok as [v|d]; [reflexivity|].
  unfold step, operator.
  repeat match goal with
         | |- context [(d =? ?c)%string] => destruct (d =? c)%string
         end;
    unfold_operator; unfold scrub, bind, assert; reduce_branch;
    repeat (match goal with
            | |- context [match ?x with _ => _ end] =>
                lazymatch x with
                | context [match _ with _ => _ end] => fail
                | _ => destruct x
                end
            end; reduce_branch);
    reflexivity.
Qed.

Lemma scrub_twice (s : state) : scrub (scrub s) = scrub s.
Proof. destruct s; reflexivity. Qed.

Lemma finalize_scrub (s : state) : finalize (scrub s) = finalize s.
Proof. destruct s; reflexivity. Qed.

Lemma step_scrub_eq (tok : token) (s1 s2 : state) :
  scrub s1 = scrub s2 ->
  result_map scrub (step tok s1) = result_map scrub (step tok s2).
Proof.
  intros E. rewrite <- (step_scrub tok s1), <- (step_scrub tok s2), E.
  reflexivity.
Qed.

Lemma run_scrub_eq (toks : list token) (s1 s2 : state) :
  scrub s1 = scrub s2 ->
  result_map scrub (run toks s1) = result_map scrub (run toks s2).
Proof.
  revert s1 s2. induction toks as [|tok toks IH]; intros s1 s2 E.
  - cbn. rewrite E. reflexivity.
  - rewrite !run_cons. pose proof (step_scrub_eq tok s1 s2 E) as S.
    destruct (step tok s1) as [a1|e1], (step tok s2) as [a2|e2];
      cbn [result_map bind] in S |- *; try discriminate S.
    + apply IH. congruence.
    + exact S.
Qed.

(** X12. [intext], [origins_beats] and [X_max] are written and never read:
    giving them other values at any point of a scan changes neither the
    exception that the rest of the scan raises, nor any other variable of
    the state it reaches, nor the arrays that are returned. In particular
    path operators inside a text object are interpreted like any other. *)
Theorem unread_variables (toks : list token) (s : state) (b : bool)
        (ob : list float) (xm : option float) :
  let s0 := set_intext b (set_origins_beats ob (set_X_max xm s)) in
  result_map scrub (run toks s0) = result_map scrub (run toks s)
  /\ result_map finalize (run toks s0) = result_map finalize (run toks s).
Proof.
  cbv zeta.
  assert (E : scrub (set_intext b (set_origins_beats ob (set_X_max xm s)))
              = scrub s) by (destruct s; reflexivity).
  pose proof (run_scrub_eq toks _ _ E) as R.
  split; [exact R|].
  destruct (run toks (set_intext b (set_origins_beats ob (set_X_max xm s))))
    as [a1|e1], (run toks s) as [a2|e2]; cbn [result_map] in R |- *;
    try discriminate R; [|congruence].
  assert (R' : scrub a1 = scrub a2) by congruence.
  rewrite <- (finalize_scrub a1), <- (finalize_scrub a2), R'. reflexivity.
Qed.

(** ** Stages *)

Lemma step_stage_other (tok : token) (s s' : state) :
  is_op "q" tok = false -> step tok s = Return s' -> stage s' = stage s.
Proof.
  intros Hq H. destruct tok as [v|d]; cbn in H.
  - inv_res H. reflexivity.
  - destruct (operator_view d s); try discriminate;
      unfold_operator; inv_res H; reflexivity.
Qed.

(** Below a level that stays open, saves do not count as stages. *)
Lemma run_nesting_stage (toks : list token) :
  forall (k n : nat) (s s' : state),
    nesting k toks = Some n ->
    0 < level s - Z.of_nat k ->
    run toks s = Return s' ->
    stage s' = stage s /\ level s' = level s + Z.of_nat n - Z.of_nat k.
Proof.
  induction toks as [|tok toks IH]; intros k n s s' N P H.
  - cbn in N, H. injection N as <-. injection H as <-. split; lia.
  - rewrite run_cons in H. apply bind_Return in H.
    destruct H as (s1 & H1 & H). cbn [nesting] in N.
    destruct (is_op "q" tok) eqn:Eq.
    + destruct tok as [v|d]; [discriminate|].
      cbn in Eq. apply String.eqb_eq in Eq. subst d.
      rewrite step_q_state in H1. injection H1 as <-.
      pose proof (fun P0 => IH (S k) n _ s' N P0 H) as IH'.
      destruct IH' as (A & B); [cbn; lia|].
      cbn in A, B. rewrite A, B.
      assert (Z : (level s =? 0) = false) by (apply Z.eqb_neq; lia).
      rewrite Z. split; lia.
    + destruct (is_op "Q" tok) eqn:EQ.
      * destruct tok as [v|d]; [discriminate|].
        cbn in EQ. apply String.eqb_eq in EQ. subst d.
        destruct k as [|k]; [discriminate|].
        pose proof (step_stage_other _ _ _ Eq H1) as S1.
        cbn in H1. unfold restore in H1. inv_res H1. cbn in S1.
        pose proof (fun P0 => IH k n _ s' N P0 H) as IH'.
        destruct IH' as (A & B); [cbn; lia|].
        cbn in A, B. rewrite A, B. split; lia.
      * destruct (step_stack_other _ _ _ Eq EQ H1) as [_ L1].
        pose proof (step_stage_other _ _ _ Eq H1) as S1.
        destruct (IH k n s1 s' N) as (A & B); [lia | exact H |].
        rewrite A, B, S1, L1. split; reflexivity.
Qed.

Lemma run_block (inner : list token) (s s' : state) :
  nesting 0 inner = Some 0%nat ->
  level s = 0 ->
  run (block inner) s = Return s' ->
  stage s' = stage s + 1 /\ level s' = 0.
Proof.
  intros N L H. unfold block in H.
  rewrite run_cons, step_q_state in H. cbn [bind] in H.
  rewrite run_app in H. apply bind_Return in H.
  destruct H as (s2 & H2 & H).
  pose proof (fun P0 => run_nesting_stage inner 0 0 _ s2 N P0 H2) as R.
  destruct R as (A & B); [cbn; lia|].
  cbn in A, B. rewrite L in A, B. cbn in A, B.
  rewrite run_cons in H. apply bind_Return in H.
  destruct H as (s3 & H3 & H). cbn in H. injection H as <-.
  pose proof (step_stage_other (Op "Q") _ _ eq_refl H3) as S3.
  cbn in H3. unfold restore in H3. inv_res H3. cbn in S3 |- *.
  split; lia.
Qed.

(** X13. [stage] counts the top-level blocks. Run at nesting depth 0, a
    sequence of blocks [q ... Q], each with well-nested saves and restores
    inside, adds the number of blocks to [stage] when it is executed
    without error, and ends at depth 0 again; so after the first block of a
    page the stage is 1, and the widths of stage 2 are those of the second
    block. *)
Theorem stage_counts_blocks (inners : list (list token)) (s s' : state) :
  Forall (fun inner => nesting 0 inner = Some 0%nat) inners ->
  level s = 0 ->
  run (List.concat (List.map block inners)) s = Return s' ->
  stage s' = stage s + Z.of_nat (List.length inners) /\ level s' = 0.
Proof.
  intros F. revert s. induction F as [|inner inners N F IH]; intros s L H.
  - cbn in H. injection H as <-. cbn. split; [lia | exact L].
  - cbn [List.map List.concat] in H. rewrite run_app in H.
    apply bind_Return in H. destruct H as (s1 & H1 & H).
    destruct (run_block inner s s1 N L H1) as (A & B).
    destruct (IH s1 B H) as (C & D).
    split; [|exact D]. rewrite C, A. cbn [List.length]. lia.
Qed.

(** ** The further theorems at concrete scans *)

(** The map [(1, -1, 5, 7)] is back after a block that installed
    [(2, 2, 0, 0)]. *)
Lemma balanced_block_restores_witness :
  transform (state_after (flipped_entry ++ block scaled_inner))
  = mkGraphicsMap (PInt 1) (PInt (-1)) (PInt 5) (PInt 7)
  /\ level (state_after (flipped_entry ++ block scaled_inner)) = 1.
Proof.
  destruct (balanced_block_restores scaled_inner
              (state_after flipped_entry)
              (state_after (flipped_entry ++ block scaled_inner)))
    as (T & _ & L).
  - reflexivity.
  - by_evaluation.
  - rewrite T, L. split; by_evaluation.
Defined.

(** After [q q Q] a restore succeeds; after [q Q] it raises. *)
Lemma depth_is_stack_size_witness :
  succeeds (step (Op "Q") (state_after [Op "q"; Op "q"; Op "Q"]))
  /\ step (Op "Q") (state_after [Op "q"; Op "Q"]) = Raise IndexError.
Proof.
  split.
  - apply (depth_is_stack_size [Op "q"; Op "q"; Op "Q"]
             (state_after [Op "q"; Op "q"; Op "Q"]) ltac:(by_evaluation)).
    by_evaluation.
  - apply (depth_is_stack_size [Op "q"; Op "Q"]
             (state_after [Op "q"; Op "Q"]) ltac:(by_evaluation)).
    by_evaluation.
Defined.

(** The trace of three samples is met at stage 3 or later. *)
Lemma counters_invariant_witness :
  subtrace (state_after three_samples) = 0
  /\ 3 <= stage (state_after three_samples)
  /\ stage (state_after three_samples)
     <= stage (state_after (three_samples ++ two_markers ++ [Op "m"])).
Proof.
  split; [by_evaluation|].
  destruct (counters_invariant three_samples (two_markers ++ [Op "m"])
              (state_after three_samples)
              (state_after (three_samples ++ two_markers ++ [Op "m"])))
    as (_ & _ & _ & _ & A & B & _).
  - by_evaluation.
  - by_evaluation.
  - split; [apply A; by_evaluation | exact B].
Defined.

(** A ['m'] with one operand under no role. *)
Lemma operand_count_checked_witness :
  _scan ([Op "q"; I 5] ++ Op "m" :: [Op "Q"]) = Raise AssertionError.
Proof.
  apply (operand_count_checked [Op "q"; I 5] [Op "Q"] "m" 2
           (state_after [Op "q"; I 5])).
  - by_evaluation.
  - reflexivity.
  - vm_compute. discriminate.
Defined.

(** The group [0.3 G] put in front of the trace block changes nothing. *)
Lemma decoration_removable_witness :
  _scan (firstn 17 three_samples ++ [F 0.3; Op "G"] ++ skipn 17 three_samples)
  = _scan three_samples.
Proof.
  rewrite <- (firstn_skipn 17 three_samples) at 3.
  apply (decoration_removable (firstn 17 three_samples)
           (skipn 17 three_samples) [PFloat 0.3] "G").
  - cbn. intuition discriminate.
  - right. exists (firstn 16 three_samples), "w"%string. reflexivity.
Defined.

(** The width 1, written as an integer at stage 2. *)
Lemma width_unrecognized_witness :
  let s := state_after [Op "q"; Op "Q"; Op "q"; I 1] in
  stage s = 2 /\ step (Op "w") s = Return (set_params [] s).
Proof.
  cbv zeta. split; [by_evaluation|].
  apply (width_unrecognized (state_after [Op "q"; Op "Q"; Op "q"; I 1])
           (PInt 1)).
  - by_evaluation.
  - right. exists 1. reflexivity.
Defined.

(** With the origins 50 and 80 and [subtrace = 1], the point [(10, 75)]
    has the amplitude -5. *)
Lemma trace_sample_values_witness :
  origins_trace (state_after second_subtrace_start) = [50; 80]%float
  /\ subtrace (state_after second_subtrace_start) = 1
  /\ trace (state_after (second_subtrace_start ++ [Op "m"]))
     = [0; 0; -5]%float.
Proof.
  split; [by_evaluation|]. split; [by_evaluation|].
  destruct (trace_sample_values "m"
              (state_after second_subtrace_start)
              (state_after (second_subtrace_start ++ [Op "m"])))
    as (x & y & o & M & _ & N & T & _).
  - by_evaluation.
  - left. reflexivity.
  - by_evaluation.
  - rewrite T.
    assert (Ey : Return (x, y) = Return (10, 75)%float)
      by (rewrite <- M; by_evaluation).
    assert (Eo : Some o = Some 80%float)
      by (rewrite <- N; by_evaluation).
    injection Ey as -> ->. injection Eo as ->. by_evaluation.
Defined.

(** The three samples are still there after the beat markers. *)
Lemma accumulators_append_only_witness :
  prefix_of [0; 10; 20]%float
            (times (state_after (three_samples ++ two_markers ++ [Op "m"])))
  /\ prefix_of [] (beats (state_after (three_samples ++ two_markers
                                         ++ [Op "m"]))).
Proof.
  destruct (accumulators_append_only (two_markers ++ [Op "m"])
              (state_after three_samples)
              (state_after (three_samples ++ two_markers ++ [Op "m"])))
    as (A & _ & B & _).
  - by_evaluation.
  - split; [exact A | exact B].
Defined.

(** A second border line and a second border move leave the width 100 and
    the right border 110; the left border follows the move. *)
Lemma border_measured_once_witness :
  let s' := state_after (border_first_line ++ border_more) in
  T_width s' = Some 100%float /\ X_max s' = Some 110%float
  /\ X_min s' = Some 50%float.
Proof.
  cbv zeta.
  destruct (border_measured_once border_first_line border_more
              (state_after border_first_line)
              (state_after (border_first_line ++ border_more)))
    as (_ & K).
  - by_evaluation.
  - by_evaluation.
  - destruct (K 100%float) as (W & X); [by_evaluation|].
    split; [exact W|]. split; [rewrite X|]; by_evaluation.
Defined.

(** The scaled times of the three samples start at 0.0. *)
Lemma time_axis_starts_at_zero_witness :
  hd_error (fst (self_ecg (finalize (state_after three_samples))))
  <> None
  /\ forall t,
       hd_error (fst (self_ecg (finalize (state_after three_samples))))
       = Some t -> t = 0%float.
Proof.
  split; [vm_compute; discriminate|].
  apply (time_axis_starts_at_zero three_samples (state_after three_samples)).
  by_evaluation.
Defined.

(** A beat marker on a page without trace: the [TypeError] is that of the
    unset cursor. *)
Lemma step_exceptions_witness :
  let s := state_after [Op "q"; Op "Q"; Op "q"; Op "Q"; Op "q"; F 0.6;
                        Op "w"; Op "q"; I 15; I 0] in
  step (Op "m") s = Raise TypeError
  /\ exists d,
       Op "m" = Op d
       /\ ((d = "m"%string /\ linestate s = 22
            /\ t_start s <> None /\ T_width s = None)
           \/ (d = "m"%string /\ 23 <= linestate s /\ t_start s = None)
           \/ (d = "l"%string /\ linestate s = 1
               /\ T_width s = None /\ X_min s = None)
           \/ (d = "l"%string /\ linestate s = 22 /\ t_start s = None)).
Proof.
  cbv zeta. split; [by_evaluation|].
  apply (step_exceptions (Op "m")
           (state_after [Op "q"; Op "Q"; Op "q"; Op "Q"; Op "q"; F 0.6;
                         Op "w"; Op "q"; I 15; I 0]) TypeError).
  by_evaluation.
Defined.

(** An empty block and a block with a width and a nested block: stage 2. *)
Lemma stage_counts_blocks_witness :
  stage (state_after (block [] ++ block [F 0.4; Op "w"; Op "q"; Op "Q"]))
  = 2.
Proof.
  destruct (stage_counts_blocks [[]; [F 0.4; Op "w"; Op "q"; Op "Q"]] init
              (state_after (block []
                              ++ block [F 0.4; Op "w"; Op "q"; Op "Q"])))
    as (A & _).
  - repeat constructor.
  - reflexivity.
  - by_evaluation.
  - rewrite A. reflexivity.
Defined.
